(** * TailorCV: the deterministic mapper and the document assembler

    A shallow embedding of [tailorcv/mappers/rendercv_mapper.py] and
    [tailorcv/assemblers/rendercv_document.py], and the properties of the
    mapping that the specification states.

    The code is read twice.  First as functions on values: the profile and
    the plan are records, a dictionary is an association list, and every
    assignment returns the new dictionary.  Python dictionaries keep
    insertion order, and the order of the sections is part of what the
    mapper promises, so a dictionary is an association list with unique
    keys, in insertion order.  The sets built by [set(...)] are only tested
    for membership and are [gset]s; the override table of the plan is only
    looked up by key and is a [gmap].

    Then as computations on a store of shared, mutable objects, to state
    what a call does to the objects it is given.  The second reading is
    proved to compute, on a store that holds a profile and a plan, the value
    that the first reading computes from them. *)

From stdpp Require Import base option list strings gmap.

Local Open Scope string_scope.
Local Open Scope list_scope.
Local Open Scope nat_scope.

(** ** Values

    What the output dictionaries hold: strings, lists and nested
    dictionaries.  Python's [None] is not a value of this type: an argument
    that may be [None] has type [option value]. *)

#[warnings="-register-all"]
Inductive value : Type :=
| VStr (s : string)
| VList (l : list value)
| VDict (d : list (string * value)).

(** Truth value of a Python list: [if xs:] is [if len(xs) != 0:]. *)
Definition truthy {A : Type} (xs : list A) : bool :=
  match xs with
  | [] => false
  | _ :: _ => true
  end.

(** ** Insertion-ordered dictionaries *)

Module PyDict.

Abbreviation t V := (list (string * V)).

Definition keys {V : Type} (d : t V) : list string := d.*1.

(** [d.get(k)] *)
Fixpoint get {V : Type} (d : t V) (k : string) : option V :=
  match d with
  | [] => None
  | (k', v) :: d' => if decide (k' = k) then Some v else get d' k
  end.

(** [k in d] *)
Definition contains {V : Type} (d : t V) (k : string) : bool :=
  match get d k with
  | Some _ => true
  | None => false
  end.

(** [d[k] = v]: an existing key keeps its position, a new key goes last. *)
Fixpoint setitem {V : Type} (d : t V) (k : string) (v : V) : t V :=
  match d with
  | [] => [(k, v)]
  | (k', v') :: d' =>
      if decide (k' = k) then (k, v) :: d' else (k', v') :: setitem d' k v
  end.

(** [del d[k]], the dictionary that [d.pop(k)] leaves behind. *)
Fixpoint remove {V : Type} (d : t V) (k : string) : t V :=
  match d with
  | [] => []
  | (k', v) :: d' => if decide (k' = k) then d' else (k', v) :: remove d' k
  end.

(** [d.pop(k)]: the value and the dictionary left; [None] is [KeyError]. *)
Definition pop {V : Type} (d : t V) (k : string) : option (V * t V) :=
  match get d k with
  | Some v => Some (v, remove d k)
  | None => None
  end.

(** The invariant of a dictionary: no key occurs twice. *)
Definition wf {V : Type} (d : t V) : Prop := NoDup (keys d).

End PyDict.

Abbreviation dict := (PyDict.t value).

(** ** The profile

    Modelled from the spec: [tailorcv.schema.profile_schema] is not part of
    the sources at hand (the entry models under [tailorcv/schema/models] are
    not the ones the mapper imports, and lack attributes that it reads, such
    as [date]).  The records carry the attributes that the mapper reads: a
    required attribute is a string, an optional one is an [option string],
    an identifier may be absent as the signature of [_resolve_highlights]
    says, highlights are a list of strings, and every entry has tags (which
    the mapper never reads). *)

Module Social.
Record t : Type := mk { network : string; username : string }.
End Social.

Module Meta.
Record t : Type := mk {
  name : string;
  headline : option string;
  location : option string;
  email : option string;
  phone : option string;
  website : option string;
  socials : option (list Social.t)
}.
End Meta.

Module Experience.
Record t : Type := mk {
  id : option string;
  company : string;
  position : string;
  location : option string;
  date : option string;
  start_date : option string;
  end_date : option string;
  summary : option string;
  highlights : list string;
  tags : list string
}.
End Experience.

Module Education.
Record t : Type := mk {
  id : option string;
  institution : string;
  area : string;
  degree : option string;
  location : option string;
  date : option string;
  start_date : option string;
  end_date : option string;
  summary : option string;
  highlights : list string;
  tags : list string
}.
End Education.

Module Project.
Record t : Type := mk {
  id : option string;
  name : string;
  summary : option string;
  location : option string;
  date : option string;
  start_date : option string;
  end_date : option string;
  highlights : list string;
  tags : list string
}.
End Project.

Module Skill.
Record t : Type := mk {
  label : string;
  details : string;
  tags : list string
}.
End Skill.

Module Profile.
Record t : Type := mk {
  meta : Meta.t;
  experience : list Experience.t;
  education : list Education.t;
  projects : list Project.t;
  skills : list Skill.t
}.
End Profile.

(** ** The selection plan

    Modelled from the spec: [tailorcv.llm.selection_schema] is not part of
    the sources at hand.  The plan has the six attributes that the mapper
    reads. *)

Module LlmSelectionPlan.
Record t : Type := mk {
  selected_experience_ids : list string;
  selected_education_ids : list string;
  selected_project_ids : list string;
  selected_skill_labels : list string;
  bullet_overrides : gmap string (list string);
  section_order : list string
}.
End LlmSelectionPlan.

(** Entries that expose an [id] attribute, as [_select_items] expects. *)
Class HasId (A : Type) : Type := id_of : A → option string.

#[export] Instance experience_has_id : HasId Experience.t := Experience.id.
#[export] Instance education_has_id : HasId Education.t := Education.id.
#[export] Instance project_has_id : HasId Project.t := Project.id.

(** ** The mapper *)

(** [x in s] for a set of strings [s] and an [x] that may be [None]:
    [None] is hashable and is not a member of a set of strings. *)
Definition in_set (x : option string) (s : gset string) : bool :=
  match x with
  | Some i => bool_decide (i ∈ s)
  | None => false
  end.

(** [_set_if_present(target, key, value)] *)
Definition _set_if_present (target : dict) (key : string)
    (v : option value) : dict :=
  match v with
  | None => target
  | Some (VList []) => target
  | Some x => PyDict.setitem target key x
  end.

(** [_select_items(items, selected_ids)] *)
Definition _select_items {A : Type} `{HasId A}
    (items : list A) (selected_ids : list string) : list A :=
  if negb (truthy selected_ids) then items
  else
    let selected : gset string := list_to_set selected_ids in
    filter (λ item, in_set (id_of item) selected = true) items.

(** [_resolve_highlights(entry_id, highlights, plan)]: [entry_id and ...]
    is false for [None] and for the empty string. *)
Definition _resolve_highlights (entry_id : option string)
    (highlights : list string) (plan : LlmSelectionPlan.t) : list string :=
  match entry_id with
  | Some i =>
      if decide (i = "") then highlights
      else match LlmSelectionPlan.bullet_overrides plan !! i with
           | Some override => override
           | None => highlights
           end
  | None => highlights
  end.

(** The tail shared by the three entry loops:
    [highlights = _resolve_highlights(...)], then
    [if highlights: item["highlights"] = highlights]. *)
Definition set_highlights (item : dict) (entry_id : option string)
    (original : list string) (plan : LlmSelectionPlan.t) : dict :=
  let highlights := _resolve_highlights entry_id original plan in
  if truthy highlights
  then PyDict.setitem item "highlights" (VList (VStr <$> highlights))
  else item.

(** A [for x in entries: ...; mapped.append(item)] loop. *)
Definition for_append {A B : Type} (body : A → B) (entries : list A) : list B :=
  fold_left (λ mapped x, mapped ++ [body x]) entries [].

(** The body of the loop of [_map_experience]. *)
Definition experience_item (plan : LlmSelectionPlan.t) (exp : Experience.t) : dict :=
  let item := [("company", VStr (Experience.company exp));
               ("position", VStr (Experience.position exp))] in
  let item := _set_if_present item "location" (VStr <$> Experience.location exp) in
  let item := _set_if_present item "date" (VStr <$> Experience.date exp) in
  let item := _set_if_present item "start_date" (VStr <$> Experience.start_date exp) in
  let item := _set_if_present item "end_date" (VStr <$> Experience.end_date exp) in
  let item := _set_if_present item "summary" (VStr <$> Experience.summary exp) in
  set_highlights item (Experience.id exp) (Experience.highlights exp) plan.

Definition _map_experience (profile : Profile.t) (plan : LlmSelectionPlan.t)
    : list dict :=
  let entries := _select_items (Profile.experience profile)
                   (LlmSelectionPlan.selected_experience_ids plan) in
  for_append (experience_item plan) entries.

(** The body of the loop of [_map_education]. *)
Definition education_item (plan : LlmSelectionPlan.t) (edu : Education.t) : dict :=
  let item := [("institution", VStr (Education.institution edu));
               ("area", VStr (Education.area edu))] in
  let item := _set_if_present item "degree" (VStr <$> Education.degree edu) in
  let item := _set_if_present item "location" (VStr <$> Education.location edu) in
  let item := _set_if_present item "date" (VStr <$> Education.date edu) in
  let item := _set_if_present item "start_date" (VStr <$> Education.start_date edu) in
  let item := _set_if_present item "end_date" (VStr <$> Education.end_date edu) in
  let item := _set_if_present item "summary" (VStr <$> Education.summary edu) in
  set_highlights item (Education.id edu) (Education.highlights edu) plan.

Definition _map_education (profile : Profile.t) (plan : LlmSelectionPlan.t)
    : list dict :=
  let entries := _select_items (Profile.education profile)
                   (LlmSelectionPlan.selected_education_ids plan) in
  for_append (education_item plan) entries.

(** The body of the loop of [_map_projects]. *)
Definition project_item (plan : LlmSelectionPlan.t) (proj : Project.t) : dict :=
  let item := [("name", VStr (Project.name proj))] in
  let item := _set_if_present item "summary" (VStr <$> Project.summary proj) in
  let item := _set_if_present item "location" (VStr <$> Project.location proj) in
  let item := _set_if_present item "date" (VStr <$> Project.date proj) in
  let item := _set_if_present item "start_date" (VStr <$> Project.start_date proj) in
  let item := _set_if_present item "end_date" (VStr <$> Project.end_date proj) in
  set_highlights item (Project.id proj) (Project.highlights proj) plan.

Definition _map_projects (profile : Profile.t) (plan : LlmSelectionPlan.t)
    : list dict :=
  let entries := _select_items (Profile.projects profile)
                   (LlmSelectionPlan.selected_project_ids plan) in
  for_append (project_item plan) entries.

(** The body of the loop of [_map_skills]. *)
Definition skill_item (skill : Skill.t) : dict :=
  [("label", VStr (Skill.label skill)); ("details", VStr (Skill.details skill))].

Definition _map_skills (profile : Profile.t) (plan : LlmSelectionPlan.t)
    : list dict :=
  let selected_labels : gset string :=
    list_to_set (LlmSelectionPlan.selected_skill_labels plan) in
  let entries :=
    if bool_decide (selected_labels ≠ ∅)
    then filter (λ s, Skill.label s ∈ selected_labels) (Profile.skills profile)
    else Profile.skills profile in
  for_append skill_item entries.

(** [_order_sections(sections, preferred_order)]: the first loop moves the
    preferred titles that are still in [remaining] over to [ordered], the
    second appends what is left. *)
Definition move_title {V : Type} (st : PyDict.t V * PyDict.t V)
    (title : string) : PyDict.t V * PyDict.t V :=
  let '(ordered, remaining) := st in
  if PyDict.contains remaining title
  then match PyDict.pop remaining title with
       | Some (entries, remaining') =>
           (PyDict.setitem ordered title entries, remaining')
       | None => st
       end
  else st.

Definition _order_sections {V : Type} (sections : PyDict.t V)
    (preferred_order : list string) : PyDict.t V :=
  if negb (truthy preferred_order) then sections
  else
    let '(ordered, remaining) :=
      fold_left move_title preferred_order ([], sections) in
    fold_left (λ ordered '(title, entries), PyDict.setitem ordered title entries)
      remaining ordered.

(** [_apply_header(cv, profile)] *)
Definition social_item (s : Social.t) : value :=
  VDict [("network", VStr (Social.network s));
         ("username", VStr (Social.username s))].

Definition _apply_header (cv : dict) (profile : Profile.t) : dict :=
  let meta := Profile.meta profile in
  let cv := PyDict.setitem cv "name" (VStr (Meta.name meta)) in
  let cv := _set_if_present cv "headline" (VStr <$> Meta.headline meta) in
  let cv := _set_if_present cv "location" (VStr <$> Meta.location meta) in
  let cv := _set_if_present cv "email" (VStr <$> Meta.email meta) in
  let cv := _set_if_present cv "phone" (VStr <$> Meta.phone meta) in
  let cv := _set_if_present cv "website" (VStr <$> Meta.website meta) in
  match Meta.socials meta with
  | Some (s :: ss) =>
      PyDict.setitem cv "social_networks" (VList (social_item <$> s :: ss))
  | _ => cv
  end.

(** How a section mapping is stored as a value. *)
Definition entries_value (entries : list dict) : value := VList (VDict <$> entries).

Definition sections_value (sections : PyDict.t (list dict)) : value :=
  VDict (prod_map id entries_value <$> sections).

(** [if entries: sections[title] = entries] *)
Definition add_section (sections : PyDict.t (list dict)) (title : string)
    (entries : list dict) : PyDict.t (list dict) :=
  if truthy entries then PyDict.setitem sections title entries else sections.

(** The section mapping of [build_cv_dict] before it is ordered. *)
Definition build_sections (profile : Profile.t) (plan : LlmSelectionPlan.t)
    : PyDict.t (list dict) :=
  let sections := [] in
  let sections := add_section sections "Experience" (_map_experience profile plan) in
  let sections := add_section sections "Projects" (_map_projects profile plan) in
  let sections := add_section sections "Education" (_map_education profile plan) in
  add_section sections "Skills" (_map_skills profile plan).

(** The [cv] dictionary that [build_cv_dict] fills. *)
Definition build_cv (profile : Profile.t) (plan : LlmSelectionPlan.t) : dict :=
  let cv := [] in
  let cv := _apply_header cv profile in
  let sections := build_sections profile plan in
  let ordered_sections :=
    _order_sections sections (LlmSelectionPlan.section_order plan) in
  if truthy ordered_sections
  then PyDict.setitem cv "sections" (sections_value ordered_sections)
  else cv.

(** [build_cv_dict(profile, plan)] *)
Definition build_cv_dict (profile : Profile.t) (plan : LlmSelectionPlan.t) : dict :=
  [("cv", VDict (build_cv profile plan))].

(** ** The assembler *)

(** A Python string is a sequence of code points; a string of the model
    holds their UTF-8 bytes.  A code point starts at every byte that is not
    a continuation byte (a byte of the form 10xxxxxx), and runs up to the
    next such byte.  [chars_from] reads a string from its end and returns
    the continuation bytes that still wait for their first byte, and the
    code points after them. *)
Definition is_continuation (a : Ascii.ascii) : bool :=
  match a with
  | Ascii.Ascii _ _ _ _ _ _ b6 b7 => b7 && negb b6
  end.

Fixpoint chars_from (s : string) : string * list string :=
  match s with
  | EmptyString => (EmptyString, [])
  | String a s' =>
      let '(pending, cs) := chars_from s' in
      if is_continuation a then (String a pending, cs)
      else (EmptyString, String a pending :: cs)
  end.

(** The characters of a string, as iterating over it yields them.  A
    string that is the encoding of a Python string does not begin with a
    continuation byte; bytes of that kind at the start of any other string
    are kept as one character. *)
Definition chars (s : string) : list string :=
  let '(pending, cs) := chars_from s in
  if decide (pending = "") then cs else pending :: cs.

(** [dict(x)] on a value.  A mapping is copied; any other argument is read
    as a sequence of key/value pairs, every element of which has to be a
    sequence of length two whose first component is hashable: a two-element
    list with a string first, a two-character string, or a mapping with two
    keys (whose iteration yields its keys).  [None] stands for the
    [TypeError] or [ValueError] that Python raises otherwise.  The
    characters of a string are its code points, see [chars]. *)
Definition pair_of (v : value) : option (string * value) :=
  match v with
  | VList [VStr k; x] => Some (k, x)
  | VStr s =>
      match chars s with
      | [k; x] => Some (k, VStr x)
      | _ => None
      end
  | VDict [(k1, _); (k2, _)] => Some (k1, VStr k2)
  | _ => None
  end.

Definition py_dict (v : value) : option dict :=
  match v with
  | VDict d => Some d
  | VStr s => if decide (s = "") then Some [] else None
  | VList l =>
      foldl (λ acc e, d ← acc; p ← pair_of e; Some (PyDict.setitem d p.1 p.2))
        (Some []) l
  end.

Section Assembler.

(** The three lookups of [tailorcv.defaults.rendercv_defaults], which is
    not part of the sources at hand: each returns a mapping. *)
Variables get_default_design get_default_locale get_default_settings : dict.

(** [dict(block) if block is not None else get_default()] *)
Definition block_or (block : option dict) (get_default : dict) : value :=
  match block with
  | Some b => VDict b
  | None => VDict get_default
  end.

(** [assemble_rendercv_document(cv_dict, design=, locale=, settings=)];
    [None] when [dict(cv_dict.get("cv", {}))] raises. *)
Definition assemble_rendercv_document (cv_dict : dict)
    (design locale settings : option dict) : option dict :=
  cv ← py_dict (default (VDict []) (PyDict.get cv_dict "cv"));
  let document := [("cv", VDict cv)] in
  let document :=
    PyDict.setitem document "design" (block_or design get_default_design) in
  let document :=
    PyDict.setitem document "locale" (block_or locale get_default_locale) in
  let document :=
    PyDict.setitem document "settings" (block_or settings get_default_settings) in
  Some document.

End Assembler.

(** ** Reading the output back *)

(** The [cv] dictionary of a document body ([{}] when there is none). *)
Definition cv_of (out : dict) : dict :=
  match PyDict.get out "cv" with
  | Some (VDict cv) => cv
  | _ => []
  end.

(** The value stored under a section title, if the [cv] dictionary has a
    [sections] mapping with that title. *)
Definition section_value (out : dict) (title : string) : option value :=
  match PyDict.get (cv_of out) "sections" with
  | Some (VDict sections) => PyDict.get sections title
  | _ => None
  end.

(** The titles of the sections of a document body, in order. *)
Definition section_titles (out : dict) : list string :=
  match PyDict.get (cv_of out) "sections" with
  | Some (VDict sections) => PyDict.keys sections
  | _ => []
  end.

(** The entries of a section; a section that is absent has none. *)
Definition section_entries (out : dict) (title : string) : list value :=
  match section_value out title with
  | Some (VList entries) => entries
  | _ => []
  end.

(** The highlights of a mapped entry; an entry without the key has none. *)
Definition entry_highlights (item : dict) : list value :=
  match PyDict.get item "highlights" with
  | Some (VList hs) => hs
  | _ => []
  end.

(** ** Words of the specification *)

(** The first occurrences of the elements of a list, in order. *)
Fixpoint first_occurrences (l : list string) : list string :=
  match l with
  | [] => []
  | x :: l' => x :: filter (λ y, y ≠ x) (first_occurrences l')
  end.

(** "Its identifier is a member of the selected set." *)
Definition id_selected (selected_ids : list string) (i : option string) : Prop :=
  match i with
  | Some x => x ∈ selected_ids
  | None => False
  end.

#[export] Instance id_selected_dec ids i : Decision (id_selected ids i).
Proof. destruct i; simpl; apply _. Defined.

(** "Empty means all; otherwise the entries whose identifier is in the
    set, in the profile's order." *)
Definition chosen {A : Type} (key : A → option string)
    (selected : list string) (items : list A) : list A :=
  match selected with
  | [] => items
  | _ :: _ => filter (λ x, id_selected selected (key x)) items
  end.

(** The source value of each key of a mapped entry or of the header: a
    required field always has one, an optional field has the profile's
    value, which may be [None]. *)
Definition field_table : Type := list (string * option value).

Definition source_of (table : field_table) (key : string) : option value :=
  mjoin (PyDict.get table key).

Definition experience_fields (exp : Experience.t) : field_table :=
  [("company", Some (VStr (Experience.company exp)));
   ("position", Some (VStr (Experience.position exp)));
   ("location", VStr <$> Experience.location exp);
   ("date", VStr <$> Experience.date exp);
   ("start_date", VStr <$> Experience.start_date exp);
   ("end_date", VStr <$> Experience.end_date exp);
   ("summary", VStr <$> Experience.summary exp)].

Definition education_fields (edu : Education.t) : field_table :=
  [("institution", Some (VStr (Education.institution edu)));
   ("area", Some (VStr (Education.area edu)));
   ("degree", VStr <$> Education.degree edu);
   ("location", VStr <$> Education.location edu);
   ("date", VStr <$> Education.date edu);
   ("start_date", VStr <$> Education.start_date edu);
   ("end_date", VStr <$> Education.end_date edu);
   ("summary", VStr <$> Education.summary edu)].

Definition project_fields (proj : Project.t) : field_table :=
  [("name", Some (VStr (Project.name proj)));
   ("summary", VStr <$> Project.summary proj);
   ("location", VStr <$> Project.location proj);
   ("date", VStr <$> Project.date proj);
   ("start_date", VStr <$> Project.start_date proj);
   ("end_date", VStr <$> Project.end_date proj)].

Definition skill_fields (skill : Skill.t) : field_table :=
  [("label", Some (VStr (Skill.label skill)));
   ("details", Some (VStr (Skill.details skill)))].

Definition header_fields (meta : Meta.t) : field_table :=
  [("name", Some (VStr (Meta.name meta)));
   ("headline", VStr <$> Meta.headline meta);
   ("location", VStr <$> Meta.location meta);
   ("email", VStr <$> Meta.email meta);
   ("phone", VStr <$> Meta.phone meta);
   ("website", VStr <$> Meta.website meta)].

(** "The sections named in the list, in the list's order, skipping the
    names that do not exist." *)
Definition named_sections {V : Type} (sections : PyDict.t V)
    (names : list string) : PyDict.t V :=
  omap (λ k, (k,.) <$> PyDict.get sections k) names.

(** "The sections not named in the list, in their original order." *)
Definition other_sections {V : Type} (sections : PyDict.t V)
    (names : list string) : PyDict.t V :=
  filter (λ kv, kv.1 ∉ names) sections.

(** "Valid section titles are fixed, constructed in that canonical order." *)
Definition canonical_titles : list string :=
  ["Experience"; "Projects"; "Education"; "Skills"].

(** The mapped entries that belong under a section title. *)
Definition mapped_entries (profile : Profile.t) (plan : LlmSelectionPlan.t)
    (title : string) : list dict :=
  if decide (title = "Experience") then _map_experience profile plan
  else if decide (title = "Projects") then _map_projects profile plan
  else if decide (title = "Education") then _map_education profile plan
  else if decide (title = "Skills") then _map_skills profile plan
  else [].

(** "A field is written into the output only if its value is present and,
    for list-valued fields, non-empty." *)
Definition emitted (source : option value) : option value :=
  match source with
  | Some (VList []) => None
  | _ => source
  end.

(** The source of the highlights of an entry is the resolved list. *)
Definition highlights_field (plan : LlmSelectionPlan.t)
    (entry_id : option string) (original : list string) : field_table :=
  [("highlights",
    Some (VList (VStr <$> _resolve_highlights entry_id original plan)))].

Definition experience_sources (plan : LlmSelectionPlan.t)
    (exp : Experience.t) : field_table :=
  experience_fields exp
  ++ highlights_field plan (Experience.id exp) (Experience.highlights exp).

Definition education_sources (plan : LlmSelectionPlan.t)
    (edu : Education.t) : field_table :=
  education_fields edu
  ++ highlights_field plan (Education.id edu) (Education.highlights edu).

Definition project_sources (plan : LlmSelectionPlan.t)
    (proj : Project.t) : field_table :=
  project_fields proj
  ++ highlights_field plan (Project.id proj) (Project.highlights proj).

(** The source of the social networks is the profile's list, if any. *)
Definition header_sources (meta : Meta.t) : field_table :=
  header_fields meta
  ++ [("social_networks",
       (λ ss, VList (social_item <$> ss)) <$> Meta.socials meta)].

(** The keys of the required fields. *)
Definition required_keys : list string :=
  ["name"; "company"; "position"; "institution"; "area"; "label"; "details"].

(** "If the identifier is a key of the override mapping, the highlights are
    the override list in full; an entry with no identifier is never
    overridden." *)
Definition highlights_law (plan : LlmSelectionPlan.t)
    (entry_id : option string) (original : list string) (item : dict) : Prop :=
  (∀ i override, entry_id = Some i → i ≠ "" →
     LlmSelectionPlan.bullet_overrides plan !! i = Some override →
     entry_highlights item = VStr <$> override)
  ∧ (entry_id = None ∨ entry_id = Some "" →
     entry_highlights item = VStr <$> original)
  ∧ (∀ i, entry_id = Some i →
     LlmSelectionPlan.bullet_overrides plan !! i = None →
     entry_highlights item = VStr <$> original).

(** ** The same code over a store of objects

    The dictionaries, lists and model instances of a running program are
    objects that are reached through references and can be shared.  To speak
    about what a call does to the objects that it is given, the module is
    read a second time, with every object in a store and every assignment
    and [append] an update of the store.  A [set] is only built and tested
    within one function and is kept as a value.  A loop reads the list it
    runs over when it starts; no loop of the module changes that list. *)

Module Store.

Abbreviation loc := nat.

(** What a variable or a slot of an object holds. *)
Inductive pyval : Type :=
| PNone
| PStr (s : string)
| PRef (l : loc).

#[export] Instance pyval_eq_dec : EqDecision pyval.
Proof. solve_decision. Defined.

Inductive obj : Type :=
| OList (items : list pyval)
| ODict (d : PyDict.t pyval)
| OInst (attrs : PyDict.t pyval).

Abbreviation store := (list obj).

(** A computation reads and updates the store, or raises. *)
Definition M (A : Type) : Type := store → option (A * store).

#[export] Instance M_ret : MRet M := λ A x s, Some (x, s).
#[export] Instance M_bind : MBind M := λ A B f m s,
  match m s with
  | Some (a, s') => f a s'
  | None => None
  end.

Definition raise {A : Type} : M A := λ _, None.

(** An operation that only reads the store. *)
Definition reading {A : Type} (f : store → option A) : M A :=
  λ s, (λ a, (a, s)) <$> f s.

(** A new object. *)
Definition alloc (o : obj) : M pyval :=
  λ s, Some (PRef (length s), s ++ [o]).

(** Overwriting the object behind a reference. *)
Definition update (v : pyval) (o : obj) : M unit :=
  λ s, match v with
       | PRef l => if decide (l < length s) then Some (tt, <[l := o]> s) else None
       | _ => None
       end.

Definition for_each {A : Type} (body : A → M unit) (xs : list A) : M unit :=
  foldr (λ x rest, body x ;; rest) (mret tt) xs.

Fixpoint map_each {A B : Type} (f : A → M B) (xs : list A) : M (list B) :=
  match xs with
  | [] => mret []
  | x :: xs' => y ← f x; ys ← map_each f xs'; mret (y :: ys)
  end.

Fixpoint filter_each {A : Type} (f : A → M bool) (xs : list A) : M (list A) :=
  match xs with
  | [] => mret []
  | x :: xs' =>
      b ← f x; ys ← filter_each f xs'; mret (if b : bool then x :: ys else ys)
  end.

(** *** Reading objects *)

Definition object_at (s : store) (v : pyval) : option obj :=
  match v with
  | PRef l => s !! l
  | _ => None
  end.

(** [v.name] *)
Definition attr_of (s : store) (v : pyval) (name : string) : option pyval :=
  match object_at s v with
  | Some (OInst attrs) => PyDict.get attrs name
  | _ => None
  end.

(** The elements that iterating over [v] yields: the items of a list, the
    keys of a dictionary, the characters of a string. *)
Definition items_of (s : store) (v : pyval) : option (list pyval) :=
  match v with
  | PNone => None
  | PStr x => Some (PStr <$> chars x)
  | PRef l =>
      match s !! l with
      | Some (OList xs) => Some xs
      | Some (ODict d) => Some (PStr <$> PyDict.keys d)
      | _ => None
      end
  end.

(** [bool(v)] *)
Definition truth_of (s : store) (v : pyval) : option bool :=
  match v with
  | PNone => Some false
  | PStr x => Some (bool_decide (x ≠ ""))
  | PRef l =>
      match s !! l with
      | Some (OList xs) => Some (truthy xs)
      | Some (ODict d) => Some (truthy d)
      | Some (OInst _) => Some true
      | None => None
      end
  end.

(** [isinstance(v, list)] *)
Definition is_list (s : store) (v : pyval) : option bool :=
  match v with
  | PRef l =>
      match s !! l with
      | Some (OList _) => Some true
      | Some _ => Some false
      | None => None
      end
  | _ => Some false
  end.

Definition dict_at (s : store) (v : pyval) : option (PyDict.t pyval) :=
  match object_at s v with
  | Some (ODict d) => Some d
  | _ => None
  end.

(** A key or a set element has to be hashable: lists, dictionaries and
    model instances are not.  [None] is, and is the key of no dictionary
    of strings. *)
Definition hashable (x : pyval) : bool :=
  match x with
  | PRef _ => false
  | _ => true
  end.

Definition key_in (s : store) (d : pyval) (k : pyval) : option bool :=
  match k with
  | PNone => (λ _, false) <$> dict_at s d
  | PStr x => (λ kvs, PyDict.contains kvs x) <$> dict_at s d
  | PRef _ => None
  end.

(** [d[k]] *)
Definition item_of (s : store) (d : pyval) (k : pyval) : option pyval :=
  match k with
  | PStr x => kvs ← dict_at s d; PyDict.get kvs x
  | _ => None
  end.

(** [set(v)], as the list of its elements. *)
Definition set_of (s : store) (v : pyval) : option (list pyval) :=
  xs ← items_of s v;
  if forallb hashable xs then Some xs else None.

(** [x in selected] for a set. *)
Definition member_of (x : pyval) (selected : list pyval) : option bool :=
  if hashable x then Some (bool_decide (x ∈ selected)) else None.

Definition getattr (v : pyval) (name : string) : M pyval :=
  reading (λ s, attr_of s v name).
Definition iter (v : pyval) : M (list pyval) := reading (λ s, items_of s v).
Definition truth (v : pyval) : M bool := reading (λ s, truth_of s v).

(** *** Updating objects *)

(** [target[key] = v] *)
Definition dict_setitem (target : pyval) (key : string) (v : pyval) : M unit :=
  d ← reading (λ s, dict_at s target);
  update target (ODict (PyDict.setitem d key v)).

(** [target.pop(key)] *)
Definition dict_pop (target : pyval) (key : string) : M pyval :=
  d ← reading (λ s, dict_at s target);
  match PyDict.pop d key with
  | Some (v, d') => update target (ODict d') ;; mret v
  | None => raise
  end.

(** [target.append(v)] *)
Definition list_append (target : pyval) (v : pyval) : M unit :=
  o ← reading (λ s, object_at s target);
  match o with
  | OList xs => update target (OList (xs ++ [v]))
  | _ => raise
  end.

(** [list(v)] *)
Definition new_list (v : pyval) : M pyval :=
  xs ← iter v; alloc (OList xs).

End Store.

(** *** The mapper *)

Module OnStore.
Import Store.

Definition _set_if_present (target : pyval) (key : string) (v : pyval) : M unit :=
  match v with
  | PNone => mret tt
  | _ =>
      l ← reading (λ s, is_list s v);
      if l : bool
      then b ← truth v;
           if b : bool then dict_setitem target key v else mret tt
      else dict_setitem target key v
  end.

Definition _select_items (items selected_ids : pyval) : M pyval :=
  b ← truth selected_ids;
  if negb b then new_list items
  else
    selected ← reading (λ s, set_of s selected_ids);
    xs ← iter items;
    ys ← filter_each
            (λ item, i ← getattr item "id"; reading (λ _, member_of i selected)) xs;
    alloc (OList ys).

Definition _resolve_highlights (entry_id highlights plan : pyval) : M pyval :=
  b ← truth entry_id;
  if b : bool
  then
    overrides ← getattr plan "bullet_overrides";
    c ← reading (λ s, key_in s overrides entry_id);
    if c : bool
    then override ← reading (λ s, item_of s overrides entry_id);
         new_list override
    else new_list highlights
  else new_list highlights.

(** [_set_if_present(item, name, x.name)] *)
Definition copy_attr (item x : pyval) (name : string) : M unit :=
  v ← getattr x name; _set_if_present item name v.

Definition set_highlights (item x plan : pyval) : M unit :=
  i ← getattr x "id";
  original ← getattr x "highlights";
  highlights ← _resolve_highlights i original plan;
  b ← truth highlights;
  if b : bool then dict_setitem item "highlights" highlights else mret tt.

Definition experience_item (plan mapped exp : pyval) : M unit :=
  company ← getattr exp "company";
  position ← getattr exp "position";
  item ← alloc (ODict [("company", company); ("position", position)]);
  copy_attr item exp "location" ;;
  copy_attr item exp "date" ;;
  copy_attr item exp "start_date" ;;
  copy_attr item exp "end_date" ;;
  copy_attr item exp "summary" ;;
  set_highlights item exp plan ;;
  list_append mapped item.

Definition _map_experience (profile plan : pyval) : M pyval :=
  items ← getattr profile "experience";
  ids ← getattr plan "selected_experience_ids";
  entries ← _select_items items ids;
  mapped ← alloc (OList []);
  xs ← iter entries;
  for_each (experience_item plan mapped) xs ;;
  mret mapped.

Definition education_item (plan mapped edu : pyval) : M unit :=
  institution ← getattr edu "institution";
  area ← getattr edu "area";
  item ← alloc (ODict [("institution", institution); ("area", area)]);
  copy_attr item edu "degree" ;;
  copy_attr item edu "location" ;;
  copy_attr item edu "date" ;;
  copy_attr item edu "start_date" ;;
  copy_attr item edu "end_date" ;;
  copy_attr item edu "summary" ;;
  set_highlights item edu plan ;;
  list_append mapped item.

Definition _map_education (profile plan : pyval) : M pyval :=
  items ← getattr profile "education";
  ids ← getattr plan "selected_education_ids";
  entries ← _select_items items ids;
  mapped ← alloc (OList []);
  xs ← iter entries;
  for_each (education_item plan mapped) xs ;;
  mret mapped.

Definition project_item (plan mapped proj : pyval) : M unit :=
  name ← getattr proj "name";
  item ← alloc (ODict [("name", name)]);
  copy_attr item proj "summary" ;;
  copy_attr item proj "location" ;;
  copy_attr item proj "date" ;;
  copy_attr item proj "start_date" ;;
  copy_attr item proj "end_date" ;;
  set_highlights item proj plan ;;
  list_append mapped item.

Definition _map_projects (profile plan : pyval) : M pyval :=
  items ← getattr profile "projects";
  ids ← getattr plan "selected_project_ids";
  entries ← _select_items items ids;
  mapped ← alloc (OList []);
  xs ← iter entries;
  for_each (project_item plan mapped) xs ;;
  mret mapped.

Definition skill_item (mapped skill : pyval) : M unit :=
  label ← getattr skill "label";
  details ← getattr skill "details";
  item ← alloc (ODict [("label", label); ("details", details)]);
  list_append mapped item.

Definition _map_skills (profile plan : pyval) : M pyval :=
  labels ← getattr plan "selected_skill_labels";
  selected_labels ← reading (λ s, set_of s labels);
  entries ←
    (if truthy selected_labels
     then skills ← getattr profile "skills";
          xs ← iter skills;
          ys ← filter_each
                  (λ skill, label ← getattr skill "label";
                            reading (λ _, member_of label selected_labels)) xs;
          alloc (OList ys)
     else skills ← getattr profile "skills";
          new_list skills);
  mapped ← alloc (OList []);
  xs ← iter entries;
  for_each (skill_item mapped) xs ;;
  mret mapped.

(** [ordered[title] = remaining.pop(title)] for a title in [remaining] *)
Definition move_title (ordered remaining title : pyval) : M unit :=
  c ← reading (λ s, key_in s remaining title);
  if c : bool
  then match title with
       | PStr k => entries ← dict_pop remaining k; dict_setitem ordered k entries
       | _ => raise
       end
  else mret tt.

Definition _order_sections (sections preferred_order : pyval) : M pyval :=
  b ← truth preferred_order;
  if negb b then mret sections
  else
    ordered ← alloc (ODict []);
    items ← reading (λ s, dict_at s sections);
    remaining ← alloc (ODict items);
    titles ← iter preferred_order;
    for_each (move_title ordered remaining) titles ;;
    rest ← reading (λ s, dict_at s remaining);
    for_each (λ '(title, entries), dict_setitem ordered title entries) rest ;;
    mret ordered.

Definition social_item (social : pyval) : M pyval :=
  network ← getattr social "network";
  username ← getattr social "username";
  alloc (ODict [("network", network); ("username", username)]).

Definition _apply_header (cv profile : pyval) : M unit :=
  meta ← getattr profile "meta";
  name ← getattr meta "name";
  dict_setitem cv "name" name ;;
  copy_attr cv meta "headline" ;;
  copy_attr cv meta "location" ;;
  copy_attr cv meta "email" ;;
  copy_attr cv meta "phone" ;;
  copy_attr cv meta "website" ;;
  socials ← getattr meta "socials";
  b ← truth socials;
  if b : bool
  then xs ← iter socials;
       ys ← map_each social_item xs;
       networks ← alloc (OList ys);
       dict_setitem cv "social_networks" networks
  else mret tt.

(** [if entries: sections[title] = entries] *)
Definition add_section (sections : pyval) (title : string) (entries : pyval) : M unit :=
  b ← truth entries;
  if b : bool then dict_setitem sections title entries else mret tt.

Definition build_cv_dict (profile plan : pyval) : M pyval :=
  cv ← alloc (ODict []);
  _apply_header cv profile ;;
  sections ← alloc (ODict []);
  experience_entries ← _map_experience profile plan;
  add_section sections "Experience" experience_entries ;;
  project_entries ← _map_projects profile plan;
  add_section sections "Projects" project_entries ;;
  education_entries ← _map_education profile plan;
  add_section sections "Education" education_entries ;;
  skill_entries ← _map_skills profile plan;
  add_section sections "Skills" skill_entries ;;
  order ← getattr plan "section_order";
  ordered_sections ← _order_sections sections order;
  add_section cv "sections" ordered_sections ;;
  alloc (ODict [("cv", cv)]).

End OnStore.

(** *** What the store holds *)

Module Reading.
Import Store.

(** The value behind [v], down to a depth of [n] objects, when reading
    it only visits locations for which [P] holds. *)
Fixpoint read_on (P : loc → bool) (n : nat) (s : store) (v : pyval)
    : option value :=
  match n with
  | 0 => None
  | S n' =>
      match v with
      | PNone => None
      | PStr x => Some (VStr x)
      | PRef l =>
          if P l
          then match s !! l with
               | Some (OList xs) => VList <$> mapM (read_on P n' s) xs
               | Some (ODict d) =>
                   VDict <$> mapM (λ kv, pair kv.1 <$> read_on P n' s kv.2) d
               | _ => None
               end
          else None
      end
  end.

(** The value behind [v], wherever its parts are. *)
Definition read_value (n : nat) (s : store) (v : pyval) : option value :=
  read_on (λ _, true) n s v.

Definition read_str (v : pyval) : option string :=
  match v with
  | PStr x => Some x
  | _ => None
  end.

Definition read_opt_str (v : pyval) : option (option string) :=
  match v with
  | PNone => Some None
  | PStr x => Some (Some x)
  | PRef _ => None
  end.

Definition read_list {A : Type} (read : pyval → option A) (s : store)
    (v : pyval) : option (list A) :=
  match object_at s v with
  | Some (OList xs) => mapM read xs
  | _ => None
  end.

Definition read_attr {A : Type} (read : pyval → option A) (s : store)
    (v : pyval) (name : string) : option A :=
  attr_of s v name ≫= read.

Definition read_social (s : store) (v : pyval) : option Social.t :=
  network ← read_attr read_str s v "network";
  username ← read_attr read_str s v "username";
  Some (Social.mk network username).

Definition read_socials (s : store) (v : pyval) : option (option (list Social.t)) :=
  match v with
  | PNone => Some None
  | _ => Some <$> read_list (read_social s) s v
  end.

Definition read_meta (s : store) (v : pyval) : option Meta.t :=
  name ← read_attr read_str s v "name";
  headline ← read_attr read_opt_str s v "headline";
  location ← read_attr read_opt_str s v "location";
  email ← read_attr read_opt_str s v "email";
  phone ← read_attr read_opt_str s v "phone";
  website ← read_attr read_opt_str s v "website";
  socials ← read_attr (read_socials s) s v "socials";
  Some (Meta.mk name headline location email phone website socials).

Definition read_experience (s : store) (v : pyval) : option Experience.t :=
  id ← read_attr read_opt_str s v "id";
  company ← read_attr read_str s v "company";
  position ← read_attr read_str s v "position";
  location ← read_attr read_opt_str s v "location";
  date ← read_attr read_opt_str s v "date";
  start_date ← read_attr read_opt_str s v "start_date";
  end_date ← read_attr read_opt_str s v "end_date";
  summary ← read_attr read_opt_str s v "summary";
  highlights ← read_attr (read_list read_str s) s v "highlights";
  tags ← read_attr (read_list read_str s) s v "tags";
  Some (Experience.mk id company position location date start_date end_date
          summary highlights tags).

Definition read_education (s : store) (v : pyval) : option Education.t :=
  id ← read_attr read_opt_str s v "id";
  institution ← read_attr read_str s v "institution";
  area ← read_attr read_str s v "area";
  degree ← read_attr read_opt_str s v "degree";
  location ← read_attr read_opt_str s v "location";
  date ← read_attr read_opt_str s v "date";
  start_date ← read_attr read_opt_str s v "start_date";
  end_date ← read_attr read_opt_str s v "end_date";
  summary ← read_attr read_opt_str s v "summary";
  highlights ← read_attr (read_list read_str s) s v "highlights";
  tags ← read_attr (read_list read_str s) s v "tags";
  Some (Education.mk id institution area degree location date start_date
          end_date summary highlights tags).

Definition read_project (s : store) (v : pyval) : option Project.t :=
  id ← read_attr read_opt_str s v "id";
  name ← read_attr read_str s v "name";
  summary ← read_attr read_opt_str s v "summary";
  location ← read_attr read_opt_str s v "location";
  date ← read_attr read_opt_str s v "date";
  start_date ← read_attr read_opt_str s v "start_date";
  end_date ← read_attr read_opt_str s v "end_date";
  highlights ← read_attr (read_list read_str s) s v "highlights";
  tags ← read_attr (read_list read_str s) s v "tags";
  Some (Project.mk id name summary location date start_date end_date
          highlights tags).

Definition read_skill (s : store) (v : pyval) : option Skill.t :=
  label ← read_attr read_str s v "label";
  details ← read_attr read_str s v "details";
  tags ← read_attr (read_list read_str s) s v "tags";
  Some (Skill.mk label details tags).

Definition read_profile (s : store) (v : pyval) : option Profile.t :=
  meta ← read_attr (read_meta s) s v "meta";
  experience ← read_attr (read_list (read_experience s) s) s v "experience";
  education ← read_attr (read_list (read_education s) s) s v "education";
  projects ← read_attr (read_list (read_project s) s) s v "projects";
  skills ← read_attr (read_list (read_skill s) s) s v "skills";
  Some (Profile.mk meta experience education projects skills).

Definition read_overrides (s : store) (v : pyval)
    : option (gmap string (list string)) :=
  d ← dict_at s v;
  kvs ← mapM (λ kv, pair kv.1 <$> read_list read_str s kv.2) d;
  Some (list_to_map kvs).

Definition read_plan (s : store) (v : pyval) : option LlmSelectionPlan.t :=
  experience_ids ← read_attr (read_list read_str s) s v "selected_experience_ids";
  education_ids ← read_attr (read_list read_str s) s v "selected_education_ids";
  project_ids ← read_attr (read_list read_str s) s v "selected_project_ids";
  skill_labels ← read_attr (read_list read_str s) s v "selected_skill_labels";
  overrides ← read_attr (read_overrides s) s v "bullet_overrides";
  order ← read_attr (read_list read_str s) s v "section_order";
  Some (LlmSelectionPlan.mk experience_ids education_ids project_ids
          skill_labels overrides order).

(** *** Reasoning about runs *)

(** The run of [m] from [s] returns, and its result and final store
    satisfy [Q]. *)
Definition wp {A : Type} (m : M A) (s : store) (Q : A → store → Prop) : Prop :=
  match m s with
  | Some (a, s') => Q a s'
  | None => False
  end.

(** [s'] has every object of [s] unchanged, except perhaps those at the
    locations [T], and has no fewer objects. *)
Definition evolves (T : list loc) (s s' : store) : Prop :=
  (length s ≤ length s')%nat ∧ ∀ l o, s !! l = Some o → l ∉ T → s' !! l = Some o.

Definition above (t : loc) : loc → bool := λ l, bool_decide (t < l).
Definition between (a b : loc) : loc → bool := λ l, bool_decide (a < l < b).

(** Two dictionaries with the same keys in the same order and related
    values. *)
Definition rel_dict {V W : Type} (R : V → W → Prop)
    (d : PyDict.t V) (D : PyDict.t W) : Prop :=
  Forall2 (λ kv KV, kv.1 = KV.1 ∧ R kv.2 KV.2) d D.

Definition reads_as (P : loc → bool) (n : nat) (s : store)
    (v : pyval) (x : value) : Prop :=
  read_on P n s v = Some x.

(** The dictionary at [t] holds the items [D], which are read without
    visiting [t]. *)
Definition dict_on (P : loc → bool) (n : nat) (s : store) (t : loc)
    (D : dict) : Prop :=
  P t = false ∧ ∃ d, s !! t = Some (ODict d) ∧ rel_dict (reads_as P n s) d D.

(** The list at [t] holds the elements [L], which are read without
    visiting [t]. *)
Definition list_on (P : loc → bool) (n : nat) (s : store) (t : loc)
    (L : list value) : Prop :=
  P t = false ∧ ∃ xs, s !! t = Some (OList xs) ∧ Forall2 (reads_as P n s) xs L.

(** The store [s] has grown from [sb], which has grown from [s0]. *)
Definition grown (s0 sb s : store) : Prop :=
  evolves [] s0 s ∧ evolves [] sb s.

End Reading.

(** *** A sample store

    A profile with two experience entries, one skill and one social
    network, and a plan that selects both experience entries, overrides the
    highlights of the first, and asks for the skills first. *)

Module Sample.
Import Store.

Definition objects : store :=
  [ OList [PStr "a"; PStr "b"];
    OList [];
    OInst [("id", PStr "e1"); ("company", PStr "Acme"); ("position", PStr "Dev");
           ("location", PStr "NYC"); ("date", PNone);
           ("start_date", PStr "2020"); ("end_date", PNone);
           ("summary", PStr ""); ("highlights", PRef 0); ("tags", PRef 1)];
    OInst [("id", PStr "e2"); ("company", PStr "Beta"); ("position", PStr "Eng");
           ("location", PNone); ("date", PNone); ("start_date", PNone);
           ("end_date", PNone); ("summary", PNone); ("highlights", PRef 1);
           ("tags", PRef 1)];
    OList [PRef 2; PRef 3];
    OInst [("label", PStr "Lang"); ("details", PStr "Python"); ("tags", PRef 1)];
    OList [PRef 5];
    OInst [("network", PStr "GitHub"); ("username", PStr "ann")];
    OList [PRef 7];
    OInst [("name", PStr "Ann"); ("headline", PStr ""); ("location", PNone);
           ("email", PStr "a@b"); ("phone", PNone); ("website", PNone);
           ("socials", PRef 8)];
    OInst [("meta", PRef 9); ("experience", PRef 4); ("education", PRef 1);
           ("projects", PRef 1); ("skills", PRef 6)];
    OList [PStr "e2"; PStr "e1"];
    OList [PStr "Lang"];
    OList [PStr "x"];
    ODict [("e1", PRef 13)];
    OList [PStr "Skills"; PStr "Nope"; PStr "Skills"];
    OInst [("selected_experience_ids", PRef 11);
           ("selected_education_ids", PRef 1);
           ("selected_project_ids", PRef 1);
           ("selected_skill_labels", PRef 12);
           ("bullet_overrides", PRef 14);
           ("section_order", PRef 15)] ].

Definition profile : Profile.t :=
  Profile.mk
    (Meta.mk "Ann" (Some "") None (Some "a@b") None None
       (Some [Social.mk "GitHub" "ann"]))
    [Experience.mk (Some "e1") "Acme" "Dev" (Some "NYC") None (Some "2020")
       None (Some "") ["a"; "b"] [];
     Experience.mk (Some "e2") "Beta" "Eng" None None None None None [] []]
    [] []
    [Skill.mk "Lang" "Python" []].

Definition plan : LlmSelectionPlan.t :=
  LlmSelectionPlan.mk ["e2"; "e1"] [] [] ["Lang"]
    (list_to_map [("e1", ["x"])]) ["Skills"; "Nope"; "Skills"].

End Sample.

(** * Properties *)

(** ** The characters of a string *)

Section Characters.

Lemma chars_from_concat (s : string) :
  String.append (chars_from s).1 (foldr String.append "" (chars_from s).2) = s.
Proof.
  induction s as [|a s IH]; [done|]. cbn [chars_from].
  destruct (chars_from s) as [pending cs]. cbn [fst snd] in IH.
  destruct (is_continuation a); rewrite <- IH; reflexivity.
Qed.

(** The characters of a string, put together again, are the string. *)
Lemma chars_concat (s : string) : foldr String.append "" (chars s) = s.
Proof.
  pose proof (chars_from_concat s) as H. unfold chars.
  destruct (chars_from s) as [pending cs]. cbn [fst snd] in H.
  destruct (decide (pending = "")) as [->|_]; done.
Qed.

(** A two-byte code point is one character: alone it is no pair, followed
    by one more character it is one. *)
Example pair_of_code_points :
  let e := String (Ascii.ascii_of_nat 195) (String (Ascii.ascii_of_nat 169) "") in
  chars e = [e]
  ∧ pair_of (VStr e) = None
  ∧ pair_of (VStr (String.append e "b")) = Some (e, VStr "b")
  ∧ pair_of (VStr "ab") = Some ("a", VStr "b")
  ∧ pair_of (VStr "abc") = None.
Proof. by vm_compute. Qed.
End Characters.

(** ** Dictionaries *)

Module PyDictFacts.
Import PyDict.

Section Facts.
Context {V : Type}.
Implicit Types (d : t V) (k : string) (v : V).

Lemma get_None d k : get d k = None ↔ k ∉ keys d.
Proof.
  unfold keys. induction d as [|[k' v'] d IH]; simpl.
  - split; [intros _; apply not_elem_of_nil | done].
  - rewrite not_elem_of_cons. case_decide; subst.
    + split; [done | intros [? _]; done].
    + rewrite IH. intuition congruence.
Qed.

Lemma get_Some_elem d k v : get d k = Some v → (k, v) ∈ d.
Proof.
  induction d as [|[k' v'] d IH]; simpl; [done|].
  case_decide; subst.
  - intros [= ->]. left.
  - intros ?. right. auto.
Qed.

Lemma elem_get d k v : wf d → (k, v) ∈ d → get d k = Some v.
Proof.
  unfold wf, keys. induction d as [|[k' v'] d IH]; simpl.
  - intros _ ?%elem_of_nil. done.
  - rewrite NoDup_cons. intros [Hk Hd] [Heq|Hin]%elem_of_cons.
    + injection Heq as -> ->. by rewrite decide_True.
    + rewrite decide_False; [auto|].
      intros ->. apply Hk. apply list_elem_of_fmap. by exists (k, v).
Qed.

Lemma contains_true d k : contains d k = true ↔ k ∈ keys d.
Proof.
  unfold contains. destruct (get d k) eqn:E.
  - split; [intros _ | done].
    destruct (decide (k ∈ keys d)) as [|Hn]; [done|].
    apply get_None in Hn. congruence.
  - split; [done|]. intros Hin. by apply get_None in E.
Qed.

Lemma get_app d1 d2 k :
  get (d1 ++ d2) k = match get d1 k with Some v => Some v | None => get d2 k end.
Proof.
  induction d1 as [|[k' v'] d1 IH]; simpl; [done|]. by case_decide.
Qed.

Lemma get_setitem d k v k' :
  get (setitem d k v) k' = if decide (k = k') then Some v else get d k'.
Proof.
  induction d as [|[k0 v0] d IH]; simpl.
  - done.
  - destruct (decide (k0 = k)) as [->|Hne]; simpl.
    + by case_decide.
    + rewrite IH. repeat case_decide; congruence.
Qed.

Lemma setitem_fresh d k v : get d k = None → setitem d k v = d ++ [(k, v)].
Proof.
  induction d as [|[k0 v0] d IH]; simpl; [done|].
  case_decide; [done|]. intros ?. f_equal. auto.
Qed.

Lemma keys_setitem_present d k v : k ∈ keys d → keys (setitem d k v) = keys d.
Proof.
  unfold keys. induction d as [|[k0 v0] d IH]; simpl.
  - intros ?%elem_of_nil. done.
  - case_decide; subst; simpl; [done|].
    intros [?|?]%elem_of_cons; [congruence|]. f_equal. auto.
Qed.

Lemma wf_setitem d k v : wf d → wf (setitem d k v).
Proof.
  intros Hwf. destruct (get d k) eqn:E.
  - unfold wf. rewrite keys_setitem_present; [done|].
    apply contains_true. unfold contains. by rewrite E.
  - rewrite setitem_fresh by done. unfold wf, keys in *.
    rewrite fmap_app. apply NoDup_app. split_and!; [done| |apply NoDup_singleton].
    intros x Hx ->%list_elem_of_singleton. by apply get_None in E.
Qed.

Lemma keys_in d k v : (k, v) ∈ d → k ∈ keys d.
Proof. intros ?. apply list_elem_of_fmap. by exists (k, v). Qed.

Lemma filter_all {A : Type} (P : A → Prop) `{∀ x, Decision (P x)} (l : list A) :
  Forall P l → filter P l = l.
Proof. induction 1; [done|]. rewrite filter_cons_True by done. by f_equal. Qed.

Lemma filter_absent d k : k ∉ keys d → filter (λ kv, kv.1 ≠ k) d = d.
Proof.
  intros Hk. apply filter_all, Forall_forall. intros [k' v'] Hin Heq. simpl in Heq. subst k'.
  by apply Hk, keys_in with v'.
Qed.

Lemma remove_filter d k : wf d → remove d k = filter (λ kv, kv.1 ≠ k) d.
Proof.
  unfold wf. induction d as [|[k0 v0] d IH]; [done|].
  unfold keys. rewrite fmap_cons, NoDup_cons. intros [Hk Hd]. cbn [remove].
  case_decide; subst.
  - rewrite filter_cons_False by (intros Hn; by apply Hn). by rewrite filter_absent.
  - rewrite filter_cons_True by done. f_equal. by apply IH.
Qed.

Lemma keys_filter (Q : string → Prop) `{∀ k, Decision (Q k)} d :
  keys (filter (λ kv, Q kv.1) d) = filter Q (keys d).
Proof.
  unfold keys. induction d as [|[k0 v0] d IH]; [done|].
  rewrite fmap_cons, !filter_cons. simpl. case_decide; [|done].
  rewrite fmap_cons. by f_equal.
Qed.

Lemma wf_filter (Q : string → Prop) `{∀ k, Decision (Q k)} d :
  wf d → wf (filter (λ kv, Q kv.1) d).
Proof. unfold wf. rewrite keys_filter. apply NoDup_filter. Qed.

Lemma get_filter (Q : string → Prop) `{∀ k, Decision (Q k)} d k :
  get (filter (λ kv, Q kv.1) d) k = if decide (Q k) then get d k else None.
Proof.
  induction d as [|[k0 v0] d IH]; [by case_decide|].
  rewrite filter_cons. simpl. destruct (decide (Q k0)); simpl.
  - rewrite IH. repeat case_decide; subst; done.
  - rewrite IH. repeat case_decide; subst; done.
Qed.

Lemma wf_NoDup d : wf d → NoDup d.
Proof. apply NoDup_fmap_1. Qed.

(** Two dictionaries with the same lookups hold the same items. *)
Lemma same_items d1 d2 :
  wf d1 → wf d2 → (∀ k, get d1 k = get d2 k) → d1 ≡ₚ d2.
Proof.
  intros H1 H2 Hget. apply NoDup_Permutation; [by apply wf_NoDup..|].
  intros [k v]. split; intros Hin.
  - apply get_Some_elem. rewrite <- Hget. by apply elem_get.
  - apply get_Some_elem. rewrite Hget. by apply elem_get.
Qed.

Lemma fold_setitem_fresh (remaining : t V) : ∀ ordered : t V,
  wf remaining → (∀ k, k ∈ keys ordered → k ∉ keys remaining) →
  fold_left (λ o '(title, entries), setitem o title entries) remaining ordered
  = ordered ++ remaining.
Proof.
  induction remaining as [|[k v] r IH]; intros o Hwf Hdis; simpl.
  - by rewrite app_nil_r.
  - unfold wf, keys in Hwf. rewrite fmap_cons, NoDup_cons in Hwf.
    destruct Hwf as [Hk Hr].
    assert (get o k = None) as Ho.
    { apply get_None. intros Hin. apply (Hdis _ Hin). left. }
    rewrite setitem_fresh by done. rewrite IH; [by rewrite <- app_assoc|done|].
    intros k'. unfold keys. rewrite fmap_app.
    intros [Hin| ->%list_elem_of_singleton]%elem_of_app; [|done].
    intros Hin'. apply (Hdis _ Hin). by right.
Qed.
End Facts.
End PyDictFacts.

(** ** Ordering the sections *)

Section Ordering.
Import PyDict PyDictFacts.
Context {V : Type}.
Implicit Types (d sections ordered remaining : PyDict.t V).

Lemma first_occurrences_elem x l : x ∈ first_occurrences l ↔ x ∈ l.
Proof.
  induction l as [|y l IH]; simpl; [done|].
  rewrite !elem_of_cons, list_elem_of_filter, IH.
  destruct (decide (x = y)); intuition.
Qed.

Lemma first_occurrences_NoDup l : NoDup (first_occurrences l).
Proof.
  induction l as [|y l IH]; simpl; [apply NoDup_nil_2|].
  apply NoDup_cons. split; [|by apply NoDup_filter].
  rewrite list_elem_of_filter. intros [Hne _]. by apply Hne.
Qed.

Lemma first_occurrences_id l : NoDup l → first_occurrences l = l.
Proof.
  induction 1 as [|x l Hx Hl IH]; simpl; [done|]. f_equal. rewrite IH.
  apply filter_all, Forall_forall. by intros y Hy ->.
Qed.

Lemma get_filter_ne d t k :
  get (filter (λ kv, kv.1 ≠ t) d) k = if decide (k ≠ t) then get d k else None.
Proof. exact (get_filter (λ y, y ≠ t) d k). Qed.

Lemma keys_filter_ne d t :
  keys (filter (λ kv, kv.1 ≠ t) d) = filter (λ y, y ≠ t) (keys d).
Proof. exact (keys_filter (λ y, y ≠ t) d). Qed.

Lemma wf_filter_ne d t : wf d → wf (filter (λ kv, kv.1 ≠ t) d).
Proof. exact (wf_filter (λ y, y ≠ t) d). Qed.

Lemma get_other_sections d names k :
  get (other_sections d names) k = if decide (k ∉ names) then get d k else None.
Proof. exact (get_filter (λ y, y ∉ names) d k). Qed.

Lemma keys_other_sections d names :
  keys (other_sections d names) = filter (λ y, y ∉ names) (keys d).
Proof. exact (keys_filter (λ y, y ∉ names) d). Qed.

Lemma wf_other_sections d names : wf d → wf (other_sections d names).
Proof. exact (wf_filter (λ y, y ∉ names) d). Qed.

Lemma named_sections_cons d k ks :
  named_sections d (k :: ks)
  = match get d k with
    | Some v => (k, v) :: named_sections d ks
    | None => named_sections d ks
    end.
Proof. unfold named_sections. simpl. by destruct (get d k). Qed.

Lemma named_sections_ne d t ks :
  named_sections (filter (λ kv, kv.1 ≠ t) d) ks
  = named_sections d (filter (λ y, y ≠ t) ks).
Proof.
  induction ks as [|k ks IH]; [done|].
  rewrite filter_cons, named_sections_cons, get_filter_ne, IH.
  destruct (decide (k ≠ t)); [by rewrite named_sections_cons|done].
Qed.

Lemma other_sections_cons d t names :
  other_sections d (t :: names)
  = other_sections (filter (λ kv, kv.1 ≠ t) d) names.
Proof.
  unfold other_sections. rewrite list_filter_filter.
  apply list_filter_iff. intros [k v]; simpl. rewrite not_elem_of_cons. tauto.
Qed.

Lemma other_sections_nil d : other_sections d [] = d.
Proof.
  apply filter_all, Forall_forall. intros ? _. apply not_elem_of_nil.
Qed.

Lemma keys_named_sections d ks :
  keys (named_sections d ks) = filter (λ k, k ∈ keys d) ks.
Proof.
  induction ks as [|k ks IH]; [done|].
  rewrite filter_cons, named_sections_cons. destruct (get d k) eqn:E.
  - rewrite decide_True.
    + unfold keys in *. rewrite fmap_cons. by f_equal.
    + apply contains_true. unfold contains. by rewrite E.
  - rewrite decide_False; [done|]. by apply get_None.
Qed.

Lemma get_named_sections d ks k :
  get (named_sections d ks) k = if decide (k ∈ ks) then get d k else None.
Proof.
  induction ks as [|k0 ks IH].
  - by rewrite decide_False by apply not_elem_of_nil.
  - rewrite named_sections_cons. destruct (get d k0) eqn:E; cbn [get].
    + destruct (decide (k0 = k)) as [->|Hne].
      * rewrite decide_True by left. done.
      * rewrite IH. apply decide_ext. rewrite elem_of_cons. intuition congruence.
    + rewrite IH. destruct (decide (k = k0)) as [->|Hne].
      * rewrite E. by repeat case_decide.
      * apply decide_ext. rewrite elem_of_cons. intuition congruence.
Qed.

Lemma fold_move_title pref : ∀ ordered remaining,
  wf remaining → (∀ k, k ∈ keys ordered → k ∉ keys remaining) →
  fold_left move_title pref (ordered, remaining)
  = (ordered ++ named_sections remaining (first_occurrences pref),
     other_sections remaining pref).
Proof.
  induction pref as [|t pref IH]; intros ordered remaining Hwf Hdis.
  - simpl. by rewrite app_nil_r, other_sections_nil.
  - cbn [fold_left first_occurrences]. rewrite other_sections_cons.
    unfold move_title at 2, pop, contains. destruct (get remaining t) as [v|] eqn:E.
    + assert (t ∈ keys remaining) as Hin.
      { apply contains_true. unfold contains. by rewrite E. }
      rewrite setitem_fresh.
      2:{ apply get_None. intros Ho. by apply (Hdis _ Ho). }
      rewrite remove_filter by done. rewrite IH.
      * rewrite named_sections_ne, (named_sections_cons remaining), E.
        by rewrite <- app_assoc.
      * by apply wf_filter_ne.
      * intros k. rewrite keys_filter_ne, list_elem_of_filter.
        unfold keys at 1. rewrite fmap_app.
        intros [Ho| ->%list_elem_of_singleton]%elem_of_app; [|tauto].
        intros [_ ?]. by apply (Hdis _ Ho).
    + assert (t ∉ keys remaining) as Hn by by apply get_None.
      rewrite filter_absent by done. rewrite IH by done. f_equal. f_equal.
      rewrite named_sections_cons, E, <- named_sections_ne.
      by rewrite filter_absent.
Qed.

(** What [_order_sections] computes on a dictionary. *)
Lemma order_sections_eq sections pref :
  wf sections →
  _order_sections sections pref
  = named_sections sections (first_occurrences pref)
    ++ other_sections sections pref.
Proof.
  intros Hwf. unfold _order_sections. destruct pref as [|t pref]; simpl negb; cbv iota.
  - simpl. by rewrite other_sections_nil.
  - rewrite fold_move_title; [|done|intros k ?%elem_of_nil; done].
    rewrite app_nil_l. apply fold_setitem_fresh.
    + by apply wf_other_sections.
    + intros k. rewrite keys_named_sections, list_elem_of_filter.
      rewrite first_occurrences_elem. intros [_ Hk].
      rewrite keys_other_sections, list_elem_of_filter. intros [Hn _]. by apply Hn.
Qed.

Lemma get_order_sections sections pref k :
  wf sections → get (_order_sections sections pref) k = get sections k.
Proof.
  intros Hwf. rewrite order_sections_eq by done.
  rewrite get_app, get_named_sections, get_other_sections.
  destruct (decide (k ∈ first_occurrences pref)) as [Hin|Hn].
  - apply first_occurrences_elem in Hin. destruct (get sections k); [done|].
    by case_decide.
  - rewrite first_occurrences_elem in Hn. by rewrite decide_True.
Qed.

Lemma keys_order_sections sections pref :
  wf sections →
  keys (_order_sections sections pref)
  = filter (λ k, k ∈ keys sections) (first_occurrences pref)
    ++ filter (λ k, k ∉ pref) (keys sections).
Proof.
  intros Hwf. rewrite order_sections_eq by done. unfold keys at 1.
  rewrite fmap_app. fold (keys (named_sections sections (first_occurrences pref))).
  rewrite keys_named_sections. f_equal. apply keys_other_sections.
Qed.

Lemma wf_order_sections sections pref :
  wf sections → wf (_order_sections sections pref).
Proof.
  intros Hwf. unfold wf. rewrite keys_order_sections by done.
  apply NoDup_app. split_and!.
  - apply NoDup_filter, first_occurrences_NoDup.
  - intros k. rewrite !list_elem_of_filter, first_occurrences_elem. tauto.
  - by apply NoDup_filter.
Qed.

Lemma order_sections_nil_keys sections pref :
  wf sections → _order_sections sections pref = [] ↔ sections = [].
Proof.
  intros Hwf. split.
  - intros Hnil. destruct sections as [|[k v] s]; [done|].
    pose proof (get_order_sections ((k, v) :: s) pref k Hwf) as Hg.
    rewrite Hnil in Hg. simpl in Hg. by rewrite decide_True in Hg.
  - intros ->. destruct (_order_sections [] pref) as [|[k v] r] eqn:E; [done|].
    pose proof (get_order_sections [] pref k Hwf) as Hg.
    rewrite E in Hg. simpl in Hg. by rewrite decide_True in Hg.
Qed.
End Ordering.

(** ** Selecting and mapping entries *)

Section Mapping.
Import PyDict PyDictFacts.

Lemma fold_append {A B : Type} (f : A → B) (l : list A) : ∀ acc,
  fold_left (λ mapped x, mapped ++ [f x]) l acc = acc ++ (f <$> l).
Proof.
  induction l as [|x l IH]; intros acc; simpl.
  - by rewrite app_nil_r.
  - rewrite IH, <- app_assoc. done.
Qed.

(** A loop that appends one item per entry is a map. *)
Lemma for_append_fmap {A B : Type} (f : A → B) (l : list A) :
  for_append f l = f <$> l.
Proof. unfold for_append. by rewrite fold_append. Qed.

Lemma in_set_selected ids (i : option string) :
  in_set i (list_to_set ids) = true ↔ id_selected ids i.
Proof.
  destruct i as [x|]; simpl; [|done].
  by rewrite bool_decide_eq_true, elem_of_list_to_set.
Qed.

(** [_select_items] keeps the chosen entries, in order. *)
Lemma select_items_chosen {A : Type} `{HasId A} (items : list A) ids :
  _select_items items ids = chosen id_of ids items.
Proof.
  unfold _select_items, chosen. destruct ids as [|x ids]; [done|]. cbn [truthy negb].
  apply list_filter_iff. intros item. apply in_set_selected.
Qed.

Lemma map_experience_eq p pl :
  _map_experience p pl
  = experience_item pl <$> chosen Experience.id
      (LlmSelectionPlan.selected_experience_ids pl) (Profile.experience p).
Proof. unfold _map_experience. by rewrite for_append_fmap, select_items_chosen. Qed.

Lemma map_education_eq p pl :
  _map_education p pl
  = education_item pl <$> chosen Education.id
      (LlmSelectionPlan.selected_education_ids pl) (Profile.education p).
Proof. unfold _map_education. by rewrite for_append_fmap, select_items_chosen. Qed.

Lemma map_projects_eq p pl :
  _map_projects p pl
  = project_item pl <$> chosen Project.id
      (LlmSelectionPlan.selected_project_ids pl) (Profile.projects p).
Proof. unfold _map_projects. by rewrite for_append_fmap, select_items_chosen. Qed.

Lemma map_skills_eq p pl :
  _map_skills p pl
  = skill_item <$> chosen (λ s, Some (Skill.label s))
      (LlmSelectionPlan.selected_skill_labels pl) (Profile.skills p).
Proof.
  unfold _map_skills, chosen. cbv zeta. rewrite for_append_fmap. f_equal.
  destruct (LlmSelectionPlan.selected_skill_labels pl) as [|x labels] eqn:E.
  - by rewrite bool_decide_eq_false_2 by (intros Hn; by apply Hn).
  - rewrite bool_decide_eq_true_2.
    + apply list_filter_iff. intros s. cbn [id_selected]. by rewrite elem_of_list_to_set.
    + intros Hempty. assert (x ∈ (list_to_set (x :: labels) : gset string)) as Hx.
      { apply elem_of_list_to_set. left. }
      rewrite Hempty in Hx. by apply not_elem_of_empty in Hx.
Qed.

(** *** The omission rule *)

Lemma get_set_if_present (target : dict) key v k :
  get (_set_if_present target key v) k
  = if decide (key = k)
    then match v with
         | None | Some (VList []) => get target k
         | Some x => Some x
         end
    else get target k.
Proof.
  unfold _set_if_present.
  destruct v as [[s|[|x l]|d]|]; rewrite ?get_setitem; by repeat case_decide.
Qed.

Lemma get_set_if_present_str (target : dict) key (o : option string) k :
  get (_set_if_present target key (VStr <$> o)) k
  = if decide (key = k)
    then match o with Some s => Some (VStr s) | None => get target k end
    else get target k.
Proof. rewrite get_set_if_present. by destruct o. Qed.

Lemma get_set_highlights (item : dict) i original pl k :
  get (set_highlights item i original pl) k
  = if decide ("highlights" = k)
    then match _resolve_highlights i original pl with
         | [] => get item k
         | h :: hs => Some (VList (VStr <$> h :: hs))
         end
    else get item k.
Proof.
  unfold set_highlights.
  destruct (_resolve_highlights i original pl); simpl; [by case_decide|].
  by rewrite get_setitem.
Qed.

Lemma entry_highlights_set (item : dict) i original pl :
  get item "highlights" = None →
  entry_highlights (set_highlights item i original pl)
  = VStr <$> _resolve_highlights i original pl.
Proof.
  intros Hnone. unfold entry_highlights. rewrite get_set_highlights.
  rewrite decide_True by done. rewrite Hnone.
  by destruct (_resolve_highlights i original pl).
Qed.
End Mapping.

(** Case analysis on the key of a lookup in a dictionary built by a fixed
    sequence of assignments. *)
Ltac lookup_cases :=
  repeat (rewrite ?get_set_if_present_str, ?get_set_highlights,
            ?PyDictFacts.get_setitem; cbn [PyDict.get]);
  repeat (case_decide; simplify_eq; try done);
  simpl; repeat (case_match; simplify_eq/=); done.

Section Items.
Import PyDict PyDictFacts.

(** Every key of a mapped entry other than [highlights] holds the
    profile's value, and is absent when the profile has none. *)
Lemma experience_item_get pl exp k :
  k ≠ "highlights" →
  get (experience_item pl exp) k = source_of (experience_fields exp) k.
Proof.
  intros Hk. unfold experience_item, source_of, experience_fields.
  destruct exp; simpl; lookup_cases.
Qed.

Lemma education_item_get pl edu k :
  k ≠ "highlights" →
  get (education_item pl edu) k = source_of (education_fields edu) k.
Proof.
  intros Hk. unfold education_item, source_of, education_fields.
  destruct edu; simpl; lookup_cases.
Qed.

Lemma project_item_get pl proj k :
  k ≠ "highlights" →
  get (project_item pl proj) k = source_of (project_fields proj) k.
Proof.
  intros Hk. unfold project_item, source_of, project_fields.
  destruct proj; simpl; lookup_cases.
Qed.

(** Every key of a mapped entry is written under the omission rule. *)
Lemma experience_item_emitted pl exp k :
  get (experience_item pl exp) k
  = emitted (source_of (experience_sources pl exp) k).
Proof.
  unfold experience_item, source_of, experience_sources, experience_fields,
    highlights_field.
  destruct exp; simpl; lookup_cases.
Qed.

Lemma education_item_emitted pl edu k :
  get (education_item pl edu) k
  = emitted (source_of (education_sources pl edu) k).
Proof.
  unfold education_item, source_of, education_sources, education_fields,
    highlights_field.
  destruct edu; simpl; lookup_cases.
Qed.

Lemma project_item_emitted pl proj k :
  get (project_item pl proj) k
  = emitted (source_of (project_sources pl proj) k).
Proof.
  unfold project_item, source_of, project_sources, project_fields,
    highlights_field.
  destruct proj; simpl; lookup_cases.
Qed.

Lemma skill_item_get skill k :
  get (skill_item skill) k = source_of (skill_fields skill) k.
Proof. unfold skill_item, source_of, skill_fields. simpl. lookup_cases. Qed.
End Items.

(** ** Sections and header of the output *)

Section Output.
Import PyDict PyDictFacts.

Lemma get_add_section sections title entries k :
  get (add_section sections title entries) k
  = if decide (title = k)
    then match entries with [] => get sections k | _ => Some entries end
    else get sections k.
Proof.
  unfold add_section. destruct entries; simpl; [by case_decide|].
  apply get_setitem.
Qed.

Lemma wf_add_section sections title entries :
  wf sections → wf (add_section sections title entries).
Proof. unfold add_section. destruct (truthy entries); [apply wf_setitem|done]. Qed.

Lemma wf_build_sections p pl : wf (build_sections p pl).
Proof.
  unfold build_sections. do 4 apply wf_add_section. apply NoDup_nil_2.
Qed.

(** The sections are built in canonical order, the empty ones left out. *)
Lemma build_sections_eq p pl :
  build_sections p pl
  = omap (λ title, match mapped_entries p pl title with
                   | [] => None
                   | entries => Some (title, entries)
                   end) canonical_titles.
Proof.
  unfold build_sections, canonical_titles, mapped_entries, add_section. simpl.
  destruct (_map_experience p pl), (_map_projects p pl),
    (_map_education p pl), (_map_skills p pl); reflexivity.
Qed.

Lemma get_build_sections p pl title :
  get (build_sections p pl) title
  = match mapped_entries p pl title with
    | [] => None
    | entries => Some entries
    end.
Proof.
  unfold build_sections, mapped_entries. rewrite !get_add_section. simpl.
  repeat (case_decide; simplify_eq; try done);
    repeat case_match; simplify_eq; done.
Qed.

Lemma get_sections_value (sections : PyDict.t (list dict)) title :
  get (prod_map id entries_value <$> sections) title
  = entries_value <$> get sections title.
Proof.
  induction sections as [|[k v] s IH]; simpl; [done|]. by case_decide.
Qed.

Lemma keys_sections_value (sections : PyDict.t (list dict)) :
  keys (prod_map id entries_value <$> sections) = keys sections.
Proof.
  unfold keys. rewrite <- list_fmap_compose. apply list_fmap_ext.
  by intros ? [??].
Qed.

Lemma get_apply_header p k :
  get (_apply_header [] p) k
  = emitted (source_of (header_sources (Profile.meta p)) k).
Proof.
  unfold _apply_header, source_of, header_sources, header_fields.
  destruct (Profile.meta p) as [n h l e ph w so]. simpl.
  destruct so as [[|s ss]|]; lookup_cases.
Qed.

Lemma cv_of_build p pl : cv_of (build_cv_dict p pl) = build_cv p pl.
Proof. reflexivity. Qed.

Lemma get_build_cv p pl k :
  get (build_cv p pl) k
  = if decide (k = "sections")
    then match _order_sections (build_sections p pl)
                 (LlmSelectionPlan.section_order pl) with
         | [] => None
         | ordered => Some (sections_value ordered)
         end
    else get (_apply_header [] p) k.
Proof.
  unfold build_cv.
  destruct (_order_sections _ _) as [|kv ordered]; cbn [truthy].
  - case_decide; [|done]. subst. rewrite get_apply_header.
    unfold source_of, header_sources, header_fields. simpl.
    by destruct (Meta.socials (Profile.meta p)) as [[|??]|].
  - rewrite get_setitem. by repeat case_decide.
Qed.

(** The value stored under a title is the list of its mapped entries. *)
Lemma section_value_build p pl title :
  section_value (build_cv_dict p pl) title
  = match mapped_entries p pl title with
    | [] => None
    | entries => Some (entries_value entries)
    end.
Proof.
  unfold section_value. rewrite cv_of_build, get_build_cv, decide_True by done.
  pose proof (wf_build_sections p pl) as Hwf.
  destruct (_order_sections _ _) as [|kv ordered] eqn:E.
  - apply order_sections_nil_keys in E; [|done].
    pose proof (get_build_sections p pl title) as Hg. rewrite E in Hg.
    by destruct (mapped_entries p pl title).
  - unfold sections_value. rewrite <- E, get_sections_value.
    rewrite get_order_sections, get_build_sections by done.
    by destruct (mapped_entries p pl title).
Qed.

Lemma section_titles_build p pl :
  section_titles (build_cv_dict p pl)
  = keys (_order_sections (build_sections p pl)
            (LlmSelectionPlan.section_order pl)).
Proof.
  unfold section_titles. rewrite cv_of_build, get_build_cv, decide_True by done.
  destruct (_order_sections _ _) as [|kv ordered] eqn:E; [done|].
  unfold sections_value. by rewrite keys_sections_value.
Qed.

Lemma section_entries_build p pl title :
  section_entries (build_cv_dict p pl) title
  = VDict <$> mapped_entries p pl title.
Proof.
  unfold section_entries. rewrite section_value_build.
  by destruct (mapped_entries p pl title).
Qed.
End Output.

(** ** Runs over the store *)

Module HeapFacts.
Import PyDict PyDictFacts Store Reading.

(** *** The weakest precondition of the operations *)

Lemma wp_bind {A B : Type} (m : M A) (f : A → M B) s Q :
  wp m s (λ a s', wp (f a) s' Q) → wp (m ≫= f) s Q.
Proof.
  unfold wp, mbind, M_bind. by destruct (m s) as [[a s']|].
Qed.

Lemma wp_ret {A : Type} (a : A) s (Q : A → store → Prop) :
  Q a s → wp (mret a) s Q.
Proof. done. Qed.

Lemma wp_mono {A : Type} (m : M A) s (Q Q' : A → store → Prop) :
  wp m s Q → (∀ a s', Q a s' → Q' a s') → wp m s Q'.
Proof. unfold wp. destruct (m s) as [[a s']|]; [auto|done]. Qed.

Lemma wp_reading {A : Type} (f : store → option A) s a (Q : A → store → Prop) :
  f s = Some a → Q a s → wp (reading f) s Q.
Proof. unfold wp, reading. by intros ->. Qed.

Lemma wp_alloc o s (Q : pyval → store → Prop) :
  Q (PRef (length s)) (s ++ [o]) → wp (alloc o) s Q.
Proof. done. Qed.

Lemma wp_update t o s (Q : unit → store → Prop) :
  t < length s → Q tt (<[t := o]> s) → wp (update (PRef t) o) s Q.
Proof. intros Ht HQ. unfold wp, update. by rewrite decide_True. Qed.

(** *** How stores evolve *)

Lemma evolves_refl T s : evolves T s s.
Proof. by split. Qed.

Lemma evolves_trans T T' s s1 s2 :
  evolves T s s1 → evolves T' s1 s2 →
  (∀ l, l ∈ T' → l ∈ T ∨ length s ≤ l) →
  evolves T s s2.
Proof.
  intros [Hl1 H1] [Hl2 H2] HT. split; [lia|]. intros l o Hlo Hn.
  apply H2; [by apply H1|]. intros Hin.
  destruct (HT _ Hin) as [?|Hge]; [done|].
  apply lookup_lt_Some in Hlo. lia.
Qed.

Lemma evolves_weaken T T' s s' :
  evolves T s s' → (∀ l, l ∈ T → l ∈ T') → evolves T' s s'.
Proof. intros [Hl H] HT. split; [done|]. intros l o ? ?. apply H; auto. Qed.

Lemma evolves_alloc T s o : evolves T s (s ++ [o]).
Proof.
  split; [rewrite length_app; lia|]. intros l o' Hl _.
  by apply lookup_app_l_Some.
Qed.

Lemma evolves_insert s t o : evolves [t] s (<[t := o]> s).
Proof.
  split; [by rewrite length_insert|]. intros l o' Hl Hn.
  rewrite list_lookup_insert_ne; [done|]. intros ->. apply Hn. left.
Qed.


(** *** Reading values *)

(** A value that was read is read again in a store that kept the
    locations that were visited. *)
Lemma read_on_mono P P' n s s' : ∀ n' v x,
  read_on P n s v = Some x →
  (∀ l, l < length s → P l = true → P' l = true) →
  n ≤ n' →
  (∀ l o, P l = true → s !! l = Some o → s' !! l = Some o) →
  read_on P' n' s' v = Some x.
Proof.
  induction n as [|n IH]; intros n' v x Hread HP Hn Hs; [done|].
  destruct n' as [|n']; [lia|]. destruct v as [|y|l]; simpl in *; try done.
  destruct (P l) eqn:HPl; [|done].
  destruct (s !! l) as [o|] eqn:Hl; [|done].
  rewrite (HP l) by (done || by eapply lookup_lt_Some).
  rewrite (Hs _ _ HPl Hl).
  destruct o as [xs|d|attrs]; [| |done].
  - destruct (mapM (read_on P n s) xs) as [ys|] eqn:E; simplify_eq/=.
    apply mapM_Some in E. erewrite (proj2 (mapM_Some _ _ _)); [done|].
    eapply Forall2_impl; [done|]. intros v y Hv. apply IH; [done..|lia|done].
  - destruct (mapM _ d) as [D|] eqn:E; simplify_eq/=.
    apply mapM_Some in E. erewrite (proj2 (mapM_Some _ _ _)); [done|].
    eapply Forall2_impl; [done|]. intros [k v] [k' y] Hv. simpl in *.
    destruct (read_on P n s v) as [z|] eqn:Ez; simplify_eq/=.
    erewrite IH; [done|done|done|lia|done].
Qed.

Lemma reads_as_keep P n s s' v x :
  reads_as P n s v x →
  (∀ l o, P l = true → s !! l = Some o → s' !! l = Some o) →
  reads_as P n s' v x.
Proof. intros H Hs. by eapply read_on_mono. Qed.

Lemma reads_as_evolves P n T s s' v x :
  reads_as P n s v x → evolves T s s' → (∀ l, l ∈ T → P l = false) →
  reads_as P n s' v x.
Proof.
  intros H [_ Hs] HT. eapply reads_as_keep; [done|].
  intros l o HP Hl. apply Hs; [done|]. intros Hin. apply HT in Hin. congruence.
Qed.

Lemma reads_as_str P n s x : reads_as P (S n) s (PStr x) (VStr x).
Proof. done. Qed.

(** *** Related dictionaries *)

Section rel_dict.
Context {V W : Type} (R : V → W → Prop).
Implicit Types (d : PyDict.t V) (D : PyDict.t W).

Lemma rel_dict_impl (R' : V → W → Prop) d D :
  rel_dict R d D → (∀ v w, R v w → R' v w) → rel_dict R' d D.
Proof.
  intros H HR. eapply Forall2_impl; [done|]. intros ?? [??]. auto.
Qed.

Lemma rel_dict_keys d D : rel_dict R d D → keys d = keys D.
Proof.
  unfold keys. induction 1 as [|[k v] [k' w] d D [Hk Hv] _ IH]; [done|].
  simpl in *. by f_equal.
Qed.

Lemma rel_dict_get d D k :
  rel_dict R d D →
  match get d k, get D k with
  | Some v, Some w => R v w
  | None, None => True
  | _, _ => False
  end.
Proof.
  induction 1 as [|[k1 v] [k2 w] d D [Hk Hv] _ IH]; [done|].
  simpl in *. subst k2. by case_decide.
Qed.

Lemma rel_dict_contains d D k :
  rel_dict R d D → contains d k = contains D k.
Proof.
  intros H%(rel_dict_get _ _ k). unfold contains.
  by destruct (get d k), (get D k).
Qed.

Lemma rel_dict_setitem d D k v w :
  rel_dict R d D → R v w → rel_dict R (setitem d k v) (setitem D k w).
Proof.
  intros H Hv. induction H as [|[k1 v1] [k2 w1] d D [Hk Hv1] H IH]; simpl.
  - by repeat constructor.
  - simpl in *. subst k2. case_decide.
    + by constructor.
    + by constructor.
Qed.

Lemma rel_dict_remove d D k :
  rel_dict R d D → rel_dict R (remove d k) (remove D k).
Proof.
  induction 1 as [|[k1 v1] [k2 w1] d D [Hk Hv1] H IH]; simpl; [constructor|].
  simpl in *. subst k2. case_decide; [done|]. by constructor.
Qed.

Lemma rel_dict_move_title do dr Do Dr title :
  rel_dict R do Do → rel_dict R dr Dr →
  rel_dict R (move_title (do, dr) title).1 (move_title (Do, Dr) title).1
  ∧ rel_dict R (move_title (do, dr) title).2 (move_title (Do, Dr) title).2.
Proof.
  intros Ho Hr. unfold move_title, pop.
  rewrite (rel_dict_contains dr Dr) by done. unfold contains.
  pose proof (rel_dict_get dr Dr title Hr) as Hg.
  destruct (get dr title), (get Dr title); try done; simpl.
  split; [by apply rel_dict_setitem|by apply rel_dict_remove].
Qed.

Lemma rel_dict_fold_move titles : ∀ do dr Do Dr,
  rel_dict R do Do → rel_dict R dr Dr →
  rel_dict R (fold_left move_title titles (do, dr)).1
             (fold_left move_title titles (Do, Dr)).1
  ∧ rel_dict R (fold_left move_title titles (do, dr)).2
               (fold_left move_title titles (Do, Dr)).2.
Proof.
  induction titles as [|t titles IH]; intros do dr Do Dr Ho Hr; [done|].
  cbn [fold_left]. destruct (rel_dict_move_title do dr Do Dr t Ho Hr) as [H1 H2].
  destruct (move_title (do, dr) t), (move_title (Do, Dr) t). by apply IH.
Qed.

Lemma rel_dict_fold_setitem dr Dr : ∀ do Do,
  rel_dict R dr Dr → rel_dict R do Do →
  rel_dict R
    (fold_left (λ o '(title, entries), setitem o title entries) dr do)
    (fold_left (λ o '(title, entries), setitem o title entries) Dr Do).
Proof.
  intros do Do Hr. revert do Do.
  induction Hr as [|[k1 v1] [k2 w1] dr Dr [Hk Hv1] H IH]; intros do Do Ho;
    [done|].
  simpl in *. subst k2. apply IH. by apply rel_dict_setitem.
Qed.

(** [_order_sections] treats the values as a black box. *)
Lemma rel_dict_order_sections d D pref :
  rel_dict R d D → rel_dict R (_order_sections d pref) (_order_sections D pref).
Proof.
  intros H. unfold _order_sections. destruct (negb (truthy pref)); [done|].
  destruct (rel_dict_fold_move pref [] d [] D) as [H1 H2]; [constructor|done|].
  destruct (fold_left move_title pref ([], d)),
    (fold_left move_title pref ([], D)).
  by apply rel_dict_fold_setitem.
Qed.
End rel_dict.

(** *** Containers under construction *)

Lemma dict_on_evolves P n T s s' t D :
  dict_on P n s t D → evolves T s s' → t ∉ T → (∀ l, l ∈ T → P l = false) →
  dict_on P n s' t D.
Proof.
  intros (HP & d & Ht & Hd) Hev Hn HT. split; [done|]. exists d. split.
  - by apply Hev.
  - eapply rel_dict_impl; [done|]. intros v w Hv. by eapply reads_as_evolves.
Qed.

Lemma list_on_evolves P n T s s' t L :
  list_on P n s t L → evolves T s s' → t ∉ T → (∀ l, l ∈ T → P l = false) →
  list_on P n s' t L.
Proof.
  intros (HP & xs & Ht & Hxs) Hev Hn HT. split; [done|]. exists xs. split.
  - by apply Hev.
  - eapply Forall2_impl; [done|]. intros v w Hv. by eapply reads_as_evolves.
Qed.

Lemma dict_on_read P P' n s t D :
  dict_on P n s t D → P' t = true →
  (∀ l, l < length s → P l = true → P' l = true) →
  reads_as P' (S n) s (PRef t) (VDict D).
Proof.
  intros (HP & d & Ht & Hd) HP't HPP'. unfold reads_as. simpl.
  rewrite HP't, Ht. erewrite (proj2 (mapM_Some _ _ _)); [done|].
  eapply Forall2_impl; [done|]. intros [k v] [k' w] [Hk Hv]. simpl in *. subst k'.
  by erewrite read_on_mono.
Qed.

Lemma list_on_read P P' n s t L :
  list_on P n s t L → P' t = true →
  (∀ l, l < length s → P l = true → P' l = true) →
  reads_as P' (S n) s (PRef t) (VList L).
Proof.
  intros (HP & xs & Ht & Hxs) HP't HPP'. unfold reads_as. simpl.
  rewrite HP't, Ht. erewrite (proj2 (mapM_Some _ _ _)); [done|].
  eapply Forall2_impl; [done|]. intros v w Hv. by eapply read_on_mono.
Qed.

Lemma dict_on_alloc P n s d D :
  P (length s) = false → rel_dict (reads_as P n s) d D →
  dict_on P n (s ++ [ODict d]) (length s) D.
Proof.
  intros HP Hd. split; [done|]. exists d. split.
  - by apply list_lookup_middle.
  - eapply rel_dict_impl; [done|]. intros v w Hv.
    eapply reads_as_evolves; [done|apply (evolves_alloc [])|].
    by intros ? ?%elem_of_nil.
Qed.

Lemma list_on_alloc P n s xs L :
  P (length s) = false → Forall2 (reads_as P n s) xs L →
  list_on P n (s ++ [OList xs]) (length s) L.
Proof.
  intros HP Hd. split; [done|]. exists xs. split.
  - by apply list_lookup_middle.
  - eapply Forall2_impl; [done|]. intros v w Hv.
    eapply reads_as_evolves; [done|apply (evolves_alloc [])|].
    by intros ? ?%elem_of_nil.
Qed.

Lemma wp_dict_setitem P n s t D k v x (Q : unit → store → Prop) :
  dict_on P n s t D → reads_as P n s v x →
  (∀ s', evolves [t] s s' → length s' = length s →
         dict_on P n s' t (setitem D k x) → Q tt s') →
  wp (dict_setitem (PRef t) k v) s Q.
Proof.
  intros (HP & d & Ht & Hd) Hv HQ. unfold dict_setitem.
  apply wp_bind, (wp_reading _ _ d); [unfold dict_at; simpl; by rewrite Ht|].
  apply wp_update; [by eapply lookup_lt_Some|].
  assert (∀ l, l ∈ [t] → P l = false) as HT.
  { by intros l ->%list_elem_of_singleton. }
  apply HQ; [apply evolves_insert|apply length_insert|].
  split; [done|]. exists (setitem d k v). split.
  - apply list_lookup_insert_eq. by eapply lookup_lt_Some.
  - apply rel_dict_setitem.
    + eapply rel_dict_impl; [done|]. intros ?? ?.
      eapply reads_as_evolves; [done|apply evolves_insert|done].
    + eapply reads_as_evolves; [done|apply evolves_insert|done].
Qed.

Lemma wp_list_append P n s t L v x (Q : unit → store → Prop) :
  list_on P n s t L → reads_as P n s v x →
  (∀ s', evolves [t] s s' → length s' = length s →
         list_on P n s' t (L ++ [x]) → Q tt s') →
  wp (list_append (PRef t) v) s Q.
Proof.
  intros (HP & xs & Ht & Hxs) Hv HQ. unfold list_append.
  apply wp_bind, (wp_reading _ _ (OList xs)); [done|].
  apply wp_update; [by eapply lookup_lt_Some|].
  assert (∀ l, l ∈ [t] → P l = false) as HT.
  { by intros l ->%list_elem_of_singleton. }
  apply HQ; [apply evolves_insert|apply length_insert|].
  split; [done|]. exists (xs ++ [v]). split.
  - apply list_lookup_insert_eq. by eapply lookup_lt_Some.
  - apply Forall2_app.
    + eapply Forall2_impl; [done|]. intros ?? ?.
      eapply reads_as_evolves; [done|apply evolves_insert|done].
    + constructor; [|constructor].
      eapply reads_as_evolves; [done|apply evolves_insert|done].
Qed.

Lemma truth_of_dict_on P n s t D :
  dict_on P n s t D → truth_of s (PRef t) = Some (truthy D).
Proof.
  intros (_ & d & Ht & Hd). simpl. rewrite Ht. f_equal.
  by destruct Hd.
Qed.

Lemma truth_of_list_on P n s t L :
  list_on P n s t L → truth_of s (PRef t) = Some (truthy L).
Proof.
  intros (_ & d & Ht & Hd). simpl. rewrite Ht. f_equal.
  by destruct Hd.
Qed.

(** *** What a larger store still holds *)

Section ext.
Context (s0 s : store) (Hext : evolves [] s0 s).

Lemma lookup_ext l o : s0 !! l = Some o → s !! l = Some o.
Proof. intros H. apply Hext; [done|apply not_elem_of_nil]. Qed.

Lemma object_at_ext v o : object_at s0 v = Some o → object_at s v = Some o.
Proof. destruct v; simpl; [done..|]. apply lookup_ext. Qed.

Lemma attr_of_ext v name a : attr_of s0 v name = Some a → attr_of s v name = Some a.
Proof.
  unfold attr_of. destruct (object_at s0 v) as [o|] eqn:E; [|done].
  by rewrite (object_at_ext _ _ E).
Qed.

Lemma dict_at_ext v d : dict_at s0 v = Some d → dict_at s v = Some d.
Proof.
  unfold dict_at. destruct (object_at s0 v) as [o|] eqn:E; [|done].
  by rewrite (object_at_ext _ _ E).
Qed.

Lemma items_of_ext v xs : items_of s0 v = Some xs → items_of s v = Some xs.
Proof.
  destruct v as [|x|l]; simpl; [done..|].
  destruct (s0 !! l) as [o|] eqn:E; [|done]. by rewrite (lookup_ext _ _ E).
Qed.

Lemma truth_of_ext v b : truth_of s0 v = Some b → truth_of s v = Some b.
Proof.
  destruct v as [|x|l]; simpl; [done..|].
  destruct (s0 !! l) as [o|] eqn:E; [|done]. by rewrite (lookup_ext _ _ E).
Qed.

Lemma is_list_ext v b : is_list s0 v = Some b → is_list s v = Some b.
Proof.
  destruct v as [|x|l]; simpl; [done..|].
  destruct (s0 !! l) as [o|] eqn:E; [|done]. by rewrite (lookup_ext _ _ E).
Qed.

Lemma key_in_ext d k b : key_in s0 d k = Some b → key_in s d k = Some b.
Proof.
  destruct k as [|x|l]; simpl; [| |done];
    destruct (dict_at s0 d) as [kvs|] eqn:E; try done;
    by rewrite (dict_at_ext _ _ E).
Qed.

Lemma item_of_ext d k v : item_of s0 d k = Some v → item_of s d k = Some v.
Proof.
  destruct k as [|x|l]; simpl; [done| |done].
  destruct (dict_at s0 d) as [kvs|] eqn:E; [|done].
  by rewrite (dict_at_ext _ _ E).
Qed.

Lemma set_of_ext v xs : set_of s0 v = Some xs → set_of s v = Some xs.
Proof.
  unfold set_of. destruct (items_of s0 v) as [ys|] eqn:E; [|done].
  by rewrite (items_of_ext _ _ E).
Qed.


End ext.











End HeapFacts.

(** ** The store-level mapper refines the mapper on values *)

Module Refinement.
Import PyDict PyDictFacts Store Reading HeapFacts.

Lemma above_self t : above t t = false.
Proof. unfold above. apply bool_decide_eq_false. lia. Qed.

Lemma above_lt t l : t < l → above t l = true.
Proof. intros. unfold above. by apply bool_decide_eq_true. Qed.

Lemma above_le t t' l : t' ≤ t → above t l = true → above t' l = true.
Proof. unfold above. rewrite !bool_decide_eq_true. lia. Qed.

Lemma mapM_read_str xs ys : mapM read_str xs = Some ys → xs = PStr <$> ys.
Proof.
  intros H%mapM_Some. induction H as [|[|x|l] y xs ys Hx _ IH];
    simplify_eq/=; [done|]. by f_equal.
Qed.

Lemma reads_as_strs P n s ys :
  Forall2 (reads_as P (S n) s) (PStr <$> ys) (VStr <$> ys).
Proof. induction ys; constructor; done. Qed.

Lemma list_to_map_get {A : Type} (kvs : PyDict.t A) k :
  (list_to_map kvs : gmap string A) !! k = get kvs k.
Proof.
  induction kvs as [|[k' v] kvs IH]; simpl; [done|].
  rewrite lookup_insert. by case_decide.
Qed.

Section run.
Context (s0 : store) (vp vpl : pyval).
Context (p : Profile.t) (pl : LlmSelectionPlan.t).
Context (Hp : read_profile s0 vp = Some p).
Context (Hpl : read_plan s0 vpl = Some pl).

Lemma grown_refl s : evolves [] s0 s → grown s0 s s.
Proof. intros. split; [done|apply evolves_refl]. Qed.

Lemma grown_step sb s s' t :
  grown s0 sb s → evolves [t] s s' → length sb ≤ t → evolves [] s0 sb →
  grown s0 sb s'.
Proof.
  intros [H0 Hb] Hs Ht H0b. destruct H0b as [Hl0 _]. split.
  - eapply evolves_trans; [done..|].
    intros l ->%list_elem_of_singleton. right. lia.
  - eapply evolves_trans; [done..|].
    intros l ->%list_elem_of_singleton. by right.
Qed.

Lemma grown_alloc sb s o : grown s0 sb s → grown s0 sb (s ++ [o]).
Proof.
  intros [H0 Hb].
  split; (eapply evolves_trans; [done|apply (evolves_alloc [])|]);
    by intros ? ?%elem_of_nil.
Qed.

Lemma grown_evolves sb s s' : grown s0 sb s → evolves [] s s' → grown s0 sb s'.
Proof.
  intros [H0 Hb] Hs.
  split; (eapply evolves_trans; [done..|]); by intros ? ?%elem_of_nil.
Qed.

Lemma wp_getattr s v name a (Q : pyval → store → Prop) :
  evolves [] s0 s → attr_of s0 v name = Some a → Q a s →
  wp (getattr v name) s Q.
Proof.
  intros Hext Ha HQ. apply (wp_reading _ _ a); [|done].
  by apply (attr_of_ext s0).
Qed.

Lemma wp_set_if_present P n s t D key v o (Q : unit → store → Prop) :
  dict_on P (S n) s t D → read_opt_str v = Some o →
  (∀ s', evolves [t] s s' → length s' = length s →
         dict_on P (S n) s' t (_set_if_present D key (VStr <$> o)) → Q tt s') →
  wp (OnStore._set_if_present (PRef t) key v) s Q.
Proof.
  intros HD Hv HQ. destruct v as [|x|l]; simplify_eq/=.
  - apply wp_ret, HQ; [apply evolves_refl|done..].
  - apply wp_bind, (wp_reading _ _ false); [done|].
    eapply wp_dict_setitem; [done|apply reads_as_str|done].
Qed.

Lemma wp_copy_attr P n sb s t D x name o (Q : unit → store → Prop) :
  evolves [] s0 sb → grown s0 sb s → length sb ≤ t →
  dict_on P (S n) s t D → read_attr read_opt_str s0 x name = Some o →
  (∀ s', grown s0 sb s' →
         dict_on P (S n) s' t (_set_if_present D name (VStr <$> o)) → Q tt s') →
  wp (OnStore.copy_attr (PRef t) x name) s Q.
Proof.
  intros H0b Hg Ht HD Ho HQ. unfold read_attr in Ho.
  destruct (attr_of s0 x name) as [v|] eqn:Ev; simplify_eq/=.
  unfold OnStore.copy_attr. apply wp_bind.
  eapply wp_getattr; [apply Hg|done|].
  eapply wp_set_if_present; [done..|]. intros s' Hs' _ HD'.
  apply HQ; [|done]. by eapply grown_step.
Qed.

Lemma wp_new_list s v ys (Q : pyval → store → Prop) :
  evolves [] s0 s → read_list read_str s0 v = Some ys →
  Q (PRef (length s)) (s ++ [OList (PStr <$> ys)]) →
  wp (new_list v) s Q.
Proof.
  intros Hext Hv HQ. unfold read_list in Hv.
  destruct (object_at s0 v) as [[xs| |]|] eqn:E; try done.
  apply mapM_read_str in Hv. subst xs.
  unfold new_list. apply wp_bind, (wp_reading _ _ (PStr <$> ys)).
  - apply (items_of_ext s0); [done|]. destruct v; simplify_eq/=. by rewrite E.
  - by apply wp_alloc.
Qed.

Lemma plan_overrides :
  ∃ vo d kvs,
    attr_of s0 vpl "bullet_overrides" = Some vo
    ∧ dict_at s0 vo = Some d
    ∧ rel_dict (λ v ys, read_list read_str s0 v = Some ys) d kvs
    ∧ ∀ k, LlmSelectionPlan.bullet_overrides pl !! k = get kvs k.
Proof.
  unfold read_plan, read_attr in Hpl. simplify_option_eq.
  match goal with H : read_overrides _ _ = Some _ |- _ =>
    unfold read_overrides in H; simplify_option_eq end.
  eexists _, _, _. split_and!; [done..| |].
  - match goal with H : mapM _ _ = Some _ |- _ => apply mapM_Some in H; rename H into Hm end.
    eapply Forall2_impl; [done|]. intros [k v] [k' ys] Hv. simpl in *.
    destruct (read_list read_str s0 v); simplify_eq/=. done.
  - intros k. simpl. apply list_to_map_get.
Qed.

Lemma wp_resolve_highlights s i oid hl hls (Q : pyval → store → Prop) :
  evolves [] s0 s → read_opt_str i = Some oid →
  read_list read_str s0 hl = Some hls →
  Q (PRef (length s))
    (s ++ [OList (PStr <$> _resolve_highlights oid hls pl)]) →
  wp (OnStore._resolve_highlights i hl vpl) s Q.
Proof.
  intros Hext Hi Hhl HQ. unfold OnStore._resolve_highlights, _resolve_highlights.
  destruct i as [|x|l]; simplify_eq/=.
  - apply wp_bind, (wp_reading _ _ false); [done|]. by eapply wp_new_list.
  - apply wp_bind, (wp_reading _ _ (bool_decide (x ≠ ""))); [done|].
    destruct (decide (x = "")) as [->|Hx].
    { rewrite bool_decide_eq_false_2 by tauto. by eapply wp_new_list. }
    rewrite bool_decide_eq_true_2 by done.
    destruct plan_overrides as (vo & d & kvs & Hvo & Hd & Hrel & Hget).
    apply wp_bind. eapply wp_getattr; [done..|].
    apply wp_bind, (wp_reading _ _ (contains d x)).
    { simpl. by rewrite (dict_at_ext _ _ Hext _ _ Hd). }
    pose proof (rel_dict_get _ d kvs x Hrel) as Hx'.
    rewrite Hget in HQ. unfold contains.
    destruct (get d x) as [vl|] eqn:Ed, (get kvs x) as [ys|] eqn:Ek; try done.
    + apply wp_bind, (wp_reading _ _ vl).
      { simpl. rewrite (dict_at_ext _ _ Hext _ _ Hd). simpl. done. }
      by eapply wp_new_list.
    + by eapply wp_new_list.
Qed.

Lemma reads_as_new_list P n s ys :
  P (length s) = true →
  reads_as P (S (S n)) (s ++ [OList (PStr <$> ys)]) (PRef (length s))
    (VList (VStr <$> ys)).
Proof.
  intros HP. unfold reads_as. simpl. rewrite HP, list_lookup_middle by done.
  erewrite (proj2 (mapM_Some _ _ _)); [done|]. apply reads_as_strs.
Qed.

Lemma dict_on_lt P n s t D : dict_on P n s t D → t < length s.
Proof. intros (_ & d & Ht & _). by eapply lookup_lt_Some. Qed.

Lemma list_on_lt P n s t L : list_on P n s t L → t < length s.
Proof. intros (_ & d & Ht & _). by eapply lookup_lt_Some. Qed.

Lemma wp_set_highlights sb s t D x oid hls (Q : unit → store → Prop) :
  evolves [] s0 sb → grown s0 sb s → length sb ≤ t →
  dict_on (above t) 2 s t D →
  read_attr read_opt_str s0 x "id" = Some oid →
  read_attr (read_list read_str s0) s0 x "highlights" = Some hls →
  (∀ s', grown s0 sb s' →
         dict_on (above t) 2 s' t (set_highlights D oid hls pl) → Q tt s') →
  wp (OnStore.set_highlights (PRef t) x vpl) s Q.
Proof.
  intros H0b Hg Ht HD Hid Hhl HQ. unfold read_attr in Hid, Hhl.
  destruct (attr_of s0 x "id") as [i|] eqn:Ei; simplify_eq/=.
  destruct (attr_of s0 x "highlights") as [hl|] eqn:Eh; simplify_eq/=.
  unfold OnStore.set_highlights. unfold set_highlights in HQ. cbv zeta in HQ.
  apply wp_bind. eapply wp_getattr; [apply Hg|done|].
  apply wp_bind. eapply wp_getattr; [apply Hg|done|].
  apply wp_bind. eapply wp_resolve_highlights; [apply Hg|done..|].
  pose proof (dict_on_lt _ _ _ _ _ HD) as Hlt.
  assert (dict_on (above t) 2
            (s ++ [OList (PStr <$> _resolve_highlights oid hls pl)]) t D) as HD1.
  { eapply dict_on_evolves; [done|apply (evolves_alloc [])|..];
      [apply not_elem_of_nil|by intros ? ?%elem_of_nil]. }
  apply wp_bind, (wp_reading _ _ (truthy (_resolve_highlights oid hls pl))).
  { simpl. rewrite list_lookup_middle by done. f_equal.
    by destruct (_resolve_highlights oid hls pl). }
  destruct (truthy (_resolve_highlights oid hls pl)) eqn:Et.
  - eapply wp_dict_setitem; [done| |].
    + apply (reads_as_new_list _ 0). by apply above_lt.
    + intros s' Hs' _ HD'. apply HQ; [|done].
      eapply grown_step; [by apply grown_alloc|done..].
  - apply wp_ret, HQ; [by apply grown_alloc|done].
Qed.

(** A finished item joins the list of mapped entries. *)
Lemma wp_append_item sb s m L t D (Q : unit → store → Prop) :
  list_on (above m) 3 sb m L → grown s0 sb s → length sb ≤ t →
  dict_on (above t) 2 s t D →
  (∀ s', evolves [m] sb s' →
         list_on (above m) 3 s' m (L ++ [VDict D]) → Q tt s') →
  wp (list_append (PRef m) (PRef t)) s Q.
Proof.
  intros HL [_ Hg] Ht HD HQ.
  pose proof (list_on_lt _ _ _ _ _ HL) as Hm.
  eapply wp_list_append.
  - eapply list_on_evolves; [done..|apply not_elem_of_nil|by intros ? ?%elem_of_nil].
  - eapply dict_on_read; [done|apply above_lt; lia|].
    intros l _. apply above_le. lia.
  - intros s' Hs' _ HL'. apply HQ; [|done].
    eapply evolves_trans; [eapply evolves_weaken; [done|by intros ? ?%elem_of_nil]|done|].
    intros l ?. by left.
Qed.

Lemma wp_getattr_str s v name c (Q : pyval → store → Prop) :
  evolves [] s0 s → read_attr read_str s0 v name = Some c → Q (PStr c) s →
  wp (getattr v name) s Q.
Proof.
  intros Hext Hc HQ. unfold read_attr in Hc.
  destruct (attr_of s0 v name) as [[|x|l]|] eqn:E; simplify_eq/=.
  by eapply wp_getattr.
Qed.

(** A new dictionary of strings. *)
Lemma wp_alloc_dict s d D (Q : pyval → store → Prop) :
  evolves [] s0 s →
  rel_dict (reads_as (above (length s)) 1 s) d D →
  (∀ s', grown s0 s s' → dict_on (above (length s)) 2 s' (length s) D →
         Q (PRef (length s)) s') →
  wp (alloc (ODict d)) s Q.
Proof.
  intros Hext Hd HQ. apply wp_alloc, HQ.
  - by apply grown_alloc, grown_refl.
  - apply dict_on_alloc; [apply above_self|].
    eapply rel_dict_impl; [done|]. intros v w Hv.
    eapply read_on_mono; [done|done|lia|done].
Qed.

Lemma read_experience_attrs v e :
  read_experience s0 v = Some e →
  read_attr read_opt_str s0 v "id" = Some (Experience.id e)
  ∧ read_attr read_str s0 v "company" = Some (Experience.company e)
  ∧ read_attr read_str s0 v "position" = Some (Experience.position e)
  ∧ read_attr read_opt_str s0 v "location" = Some (Experience.location e)
  ∧ read_attr read_opt_str s0 v "date" = Some (Experience.date e)
  ∧ read_attr read_opt_str s0 v "start_date" = Some (Experience.start_date e)
  ∧ read_attr read_opt_str s0 v "end_date" = Some (Experience.end_date e)
  ∧ read_attr read_opt_str s0 v "summary" = Some (Experience.summary e)
  ∧ read_attr (read_list read_str s0) s0 v "highlights"
    = Some (Experience.highlights e).
Proof.
  intros He. unfold read_experience in He. simplify_option_eq. by split_and!.
Qed.

Lemma wp_experience_item s m L v e (Q : unit → store → Prop) :
  evolves [] s0 s → list_on (above m) 3 s m L →
  read_experience s0 v = Some e →
  (∀ s', evolves [m] s s' →
         list_on (above m) 3 s' m (L ++ [VDict (experience_item pl e)]) →
         Q tt s') →
  wp (OnStore.experience_item vpl (PRef m) v) s Q.
Proof.
  intros Hext HL He HQ.
  destruct (read_experience_attrs _ _ He)
    as (Hid & Hc & Hp' & Hl & Hd & Hs & He' & Hsum & Hhl).
  unfold OnStore.experience_item.
  apply wp_bind. eapply wp_getattr_str; [done..|].
  apply wp_bind. eapply wp_getattr_str; [done..|].
  apply wp_bind.
  eapply (wp_alloc_dict _ _ [("company", VStr _); ("position", VStr _)]);
    [done|by repeat constructor|].
  intros s1 Hg HD.
  do 5 (apply wp_bind; eapply wp_copy_attr; [done..|];
        clear s1 Hg HD; intros s1 Hg HD).
  apply wp_bind; eapply wp_set_highlights; [done..|];
    clear s1 Hg HD; intros s1 Hg HD.
  eapply wp_append_item; [done..|]. done.
Qed.

Lemma read_education_attrs v e :
  read_education s0 v = Some e →
  read_attr read_opt_str s0 v "id" = Some (Education.id e)
  ∧ read_attr read_str s0 v "institution" = Some (Education.institution e)
  ∧ read_attr read_str s0 v "area" = Some (Education.area e)
  ∧ read_attr read_opt_str s0 v "degree" = Some (Education.degree e)
  ∧ read_attr read_opt_str s0 v "location" = Some (Education.location e)
  ∧ read_attr read_opt_str s0 v "date" = Some (Education.date e)
  ∧ read_attr read_opt_str s0 v "start_date" = Some (Education.start_date e)
  ∧ read_attr read_opt_str s0 v "end_date" = Some (Education.end_date e)
  ∧ read_attr read_opt_str s0 v "summary" = Some (Education.summary e)
  ∧ read_attr (read_list read_str s0) s0 v "highlights"
    = Some (Education.highlights e).
Proof.
  intros He. unfold read_education in He. simplify_option_eq. by split_and!.
Qed.

Lemma wp_education_item s m L v e (Q : unit → store → Prop) :
  evolves [] s0 s → list_on (above m) 3 s m L →
  read_education s0 v = Some e →
  (∀ s', evolves [m] s s' →
         list_on (above m) 3 s' m (L ++ [VDict (education_item pl e)]) →
         Q tt s') →
  wp (OnStore.education_item vpl (PRef m) v) s Q.
Proof.
  intros Hext HL He HQ.
  destruct (read_education_attrs _ _ He)
    as (Hid & Hc & Hp' & Hdg & Hl & Hd & Hs & He' & Hsum & Hhl).
  unfold OnStore.education_item.
  apply wp_bind. eapply wp_getattr_str; [done..|].
  apply wp_bind. eapply wp_getattr_str; [done..|].
  apply wp_bind.
  eapply (wp_alloc_dict _ _ [("institution", VStr _); ("area", VStr _)]);
    [done|by repeat constructor|].
  intros s1 Hg HD.
  do 6 (apply wp_bind; eapply wp_copy_attr; [done..|];
        clear s1 Hg HD; intros s1 Hg HD).
  apply wp_bind; eapply wp_set_highlights; [done..|];
    clear s1 Hg HD; intros s1 Hg HD.
  eapply wp_append_item; [done..|]. done.
Qed.

Lemma read_project_attrs v e :
  read_project s0 v = Some e →
  read_attr read_opt_str s0 v "id" = Some (Project.id e)
  ∧ read_attr read_str s0 v "name" = Some (Project.name e)
  ∧ read_attr read_opt_str s0 v "summary" = Some (Project.summary e)
  ∧ read_attr read_opt_str s0 v "location" = Some (Project.location e)
  ∧ read_attr read_opt_str s0 v "date" = Some (Project.date e)
  ∧ read_attr read_opt_str s0 v "start_date" = Some (Project.start_date e)
  ∧ read_attr read_opt_str s0 v "end_date" = Some (Project.end_date e)
  ∧ read_attr (read_list read_str s0) s0 v "highlights"
    = Some (Project.highlights e).
Proof.
  intros He. unfold read_project in He. simplify_option_eq. by split_and!.
Qed.

Lemma wp_project_item s m L v e (Q : unit → store → Prop) :
  evolves [] s0 s → list_on (above m) 3 s m L →
  read_project s0 v = Some e →
  (∀ s', evolves [m] s s' →
         list_on (above m) 3 s' m (L ++ [VDict (project_item pl e)]) →
         Q tt s') →
  wp (OnStore.project_item vpl (PRef m) v) s Q.
Proof.
  intros Hext HL He HQ.
  destruct (read_project_attrs _ _ He)
    as (Hid & Hc & Hsum & Hl & Hd & Hs & He' & Hhl).
  unfold OnStore.project_item.
  apply wp_bind. eapply wp_getattr_str; [done..|].
  apply wp_bind.
  eapply (wp_alloc_dict _ _ [("name", VStr _)]);
    [done|by repeat constructor|].
  intros s1 Hg HD.
  do 5 (apply wp_bind; eapply wp_copy_attr; [done..|];
        clear s1 Hg HD; intros s1 Hg HD).
  apply wp_bind; eapply wp_set_highlights; [done..|];
    clear s1 Hg HD; intros s1 Hg HD.
  eapply wp_append_item; [done..|]. done.
Qed.

Lemma read_skill_attrs v e :
  read_skill s0 v = Some e →
  read_attr read_str s0 v "label" = Some (Skill.label e)
  ∧ read_attr read_str s0 v "details" = Some (Skill.details e).
Proof.
  intros He. unfold read_skill in He. simplify_option_eq. by split_and!.
Qed.

Lemma wp_skill_item s m L v e (Q : unit → store → Prop) :
  evolves [] s0 s → list_on (above m) 3 s m L →
  read_skill s0 v = Some e →
  (∀ s', evolves [m] s s' →
         list_on (above m) 3 s' m (L ++ [VDict (skill_item e)]) →
         Q tt s') →
  wp (OnStore.skill_item (PRef m) v) s Q.
Proof.
  intros Hext HL He HQ.
  destruct (read_skill_attrs _ _ He) as (Hl & Hd).
  unfold OnStore.skill_item.
  apply wp_bind. eapply wp_getattr_str; [done..|].
  apply wp_bind. eapply wp_getattr_str; [done..|].
  apply wp_bind.
  eapply (wp_alloc_dict _ _ [("label", VStr _); ("details", VStr _)]);
    [done|by repeat constructor|].
  intros s1 Hg HD.
  eapply wp_append_item; [done..|]. done.
Qed.

(** A loop that maps the entries one by one onto the list at [m]. *)
Lemma wp_for_each_item {A : Type} (body : pyval → M unit)
    (read : pyval → option A) (item : A → dict) m :
  length s0 ≤ m →
  (∀ s L v e (Q : unit → store → Prop),
     evolves [] s0 s → list_on (above m) 3 s m L → read v = Some e →
     (∀ s', evolves [m] s s' →
            list_on (above m) 3 s' m (L ++ [VDict (item e)]) → Q tt s') →
     wp (body v) s Q) →
  ∀ xs es, Forall2 (λ v e, read v = Some e) xs es →
  ∀ s L (Q : unit → store → Prop),
    evolves [] s0 s → list_on (above m) 3 s m L →
    (∀ s', evolves [m] s s' →
           list_on (above m) 3 s' m (L ++ (VDict ∘ item <$> es)) → Q tt s') →
    wp (for_each body xs) s Q.
Proof.
  intros Hm Hbody xs es Hxs.
  induction Hxs as [|v e xs es Hv _ IH]; intros s L Q Hext HL HQ.
  - apply wp_ret, HQ; [apply evolves_refl|]. by rewrite app_nil_r.
  - simpl. apply wp_bind. eapply Hbody; [done..|]. intros s1 Hs1 HL1.
    apply (IH s1 (L ++ [VDict (item e)])); [|done|].
    + eapply evolves_trans; [done..|].
      intros l ->%list_elem_of_singleton. right. lia.
    + intros s' Hs' HL'. apply HQ.
      * eapply evolves_trans; [done..|]. intros l ?. by left.
      * by rewrite <- app_assoc in HL'.
Qed.

Lemma read_list_inv {A : Type} (f : pyval → option A) v ys :
  read_list f s0 v = Some ys →
  ∃ l xs, v = PRef l ∧ s0 !! l = Some (OList xs)
          ∧ Forall2 (λ a y, f a = Some y) xs ys.
Proof.
  unfold read_list. destruct v as [|x|l]; simpl; [done..|].
  destruct (s0 !! l) as [[xs| |]|] eqn:E; try done.
  intros H%mapM_Some. by exists l, xs.
Qed.

Lemma read_str_list_inv v ys :
  read_list read_str s0 v = Some ys →
  ∃ l, v = PRef l ∧ s0 !! l = Some (OList (PStr <$> ys)).
Proof.
  intros (l & xs & -> & Hl & Hxs)%read_list_inv. exists l. split; [done|].
  apply mapM_Some, mapM_read_str in Hxs. by subst.
Qed.

Lemma hashable_strs ys : forallb hashable (PStr <$> ys) = true.
Proof. by induction ys. Qed.

Lemma member_of_strs o a sel :
  read_opt_str a = Some o →
  member_of a (PStr <$> sel) = Some (bool_decide (id_selected sel o)).
Proof.
  destruct a as [|x|l]; intros [= <-]; unfold member_of;
    cbn [hashable id_selected]; f_equal; apply bool_decide_ext.
  - split; [|done]. intros (? & ? & ?)%list_elem_of_fmap. done.
  - rewrite list_elem_of_fmap. split.
    + by intros (? & [= ->] & ?).
    + intros ?. by exists x.
Qed.

(** The comprehension [[x for x in xs if x.name in selected]]. *)
Lemma wp_filter_member {A : Type} (read : pyval → option A)
    (key : A → option string) (name : string) sel s :
  evolves [] s0 s →
  (∀ v e, read v = Some e →
     ∃ a, attr_of s0 v name = Some a ∧ read_opt_str a = Some (key e)) →
  ∀ xs es, Forall2 (λ v e, read v = Some e) xs es →
  ∀ (Q : list pyval → store → Prop),
    (∀ ys, Forall2 (λ v e, read v = Some e) ys
             (filter (λ e, id_selected sel (key e)) es) → Q ys s) →
    wp (filter_each
          (λ item, i ← getattr item name;
                   reading (λ _, member_of i (PStr <$> sel))) xs) s Q.
Proof.
  intros Hext Hkey xs es Hxs.
  induction Hxs as [|v e xs es Hv _ IH]; intros Q HQ.
  - apply wp_ret, HQ. constructor.
  - cbn [filter_each]. destruct (Hkey _ _ Hv) as (a & Ha & Hk).
    apply wp_bind, wp_bind. eapply wp_getattr; [done..|].
    eapply wp_reading; [by apply member_of_strs|].
    apply wp_bind, IH. intros ys Hys. apply wp_ret, HQ.
    rewrite filter_cons. destruct (decide (id_selected sel (key e))).
    + rewrite bool_decide_eq_true_2 by done. by constructor.
    + by rewrite bool_decide_eq_false_2 by done.
Qed.

Lemma wp_select_items {A : Type} `{HasId A} (read : pyval → option A)
    s items ids all idl (Q : pyval → store → Prop) :
  evolves [] s0 s →
  read_list read s0 items = Some all →
  read_list read_str s0 ids = Some idl →
  (∀ v e, read v = Some e →
     ∃ a, attr_of s0 v "id" = Some a ∧ read_opt_str a = Some (id_of e)) →
  (∀ xs, Forall2 (λ v e, read v = Some e) xs (chosen id_of idl all) →
         Q (PRef (length s)) (s ++ [OList xs])) →
  wp (OnStore._select_items items ids) s Q.
Proof.
  intros Hext (li & xs & -> & Hli & Hxs)%read_list_inv
    (ld & -> & Hld)%read_str_list_inv Hid HQ.
  pose proof (lookup_ext _ _ Hext _ _ Hli) as Hli'.
  pose proof (lookup_ext _ _ Hext _ _ Hld) as Hld'.
  unfold OnStore._select_items.
  apply wp_bind, (wp_reading _ _ (truthy idl)).
  { simpl. rewrite Hld'. f_equal. by destruct idl. }
  destruct idl as [|i idl]; cbn [truthy negb].
  - unfold new_list. apply wp_bind, (wp_reading _ _ xs).
    { simpl. by rewrite Hli'. }
    by apply wp_alloc, HQ.
  - apply wp_bind, (wp_reading _ _ (PStr <$> i :: idl)).
    { unfold set_of. cbn [items_of]. rewrite Hld'. cbn [mbind option_bind].
      by rewrite (hashable_strs (i :: idl)). }
    apply wp_bind, (wp_reading _ _ xs).
    { simpl. by rewrite Hli'. }
    apply wp_bind. eapply wp_filter_member; [done..|].
    intros ys Hys. by apply wp_alloc, HQ.
Qed.

(** The list of mapped entries and the loop that fills it. *)
Lemma wp_mapped_loop {A : Type} (read : pyval → option A)
    (body : pyval → pyval → M unit) (item : A → dict)
    s le xs es (Q : pyval → store → Prop) :
  evolves [] s0 s → s !! le = Some (OList xs) →
  Forall2 (λ v e, read v = Some e) xs es →
  (∀ m s L v e (Q : unit → store → Prop),
     evolves [] s0 s → list_on (above m) 3 s m L → read v = Some e →
     (∀ s', evolves [m] s s' →
            list_on (above m) 3 s' m (L ++ [VDict (item e)]) → Q tt s') →
     wp (body (PRef m) v) s Q) →
  (∀ m s', evolves [] s s' → length s ≤ m →
           list_on (above m) 3 s' m (VDict ∘ item <$> es) → Q (PRef m) s') →
  wp (mapped ← alloc (OList []);
      ys ← iter (PRef le);
      for_each (body mapped) ys ;; mret mapped) s Q.
Proof.
  intros Hext Hle Hxs Hbody HQ.
  apply wp_bind, wp_alloc.
  apply wp_bind, (wp_reading _ _ xs).
  { simpl. by rewrite (lookup_app_l_Some _ _ _ _ Hle). }
  assert (evolves [] s0 (s ++ [OList []])) as Hext1.
  { eapply evolves_trans; [done|apply (evolves_alloc [])|].
    by intros ? ?%elem_of_nil. }
  apply wp_bind.
  eapply (wp_for_each_item (body (PRef (length s))) read item (length s));
    [destruct Hext; lia| |done|done| |].
  - intros. by eapply Hbody.
  - apply list_on_alloc; [apply above_self|constructor].
  - intros s' Hs' HL. apply wp_ret, HQ; [|done|done].
    eapply evolves_trans; [apply (evolves_alloc [])|done|].
    intros l ->%list_elem_of_singleton. by right.
Qed.

Lemma read_attr_inv {A : Type} (f : pyval → option A) v name x :
  read_attr f s0 v name = Some x →
  ∃ a, attr_of s0 v name = Some a ∧ f a = Some x.
Proof.
  unfold read_attr. destruct (attr_of s0 v name) as [a|]; [|done].
  intros ?. by exists a.
Qed.

Lemma profile_attrs :
  read_attr (read_meta s0) s0 vp "meta" = Some (Profile.meta p)
  ∧ read_attr (read_list (read_experience s0) s0) s0 vp "experience"
    = Some (Profile.experience p)
  ∧ read_attr (read_list (read_education s0) s0) s0 vp "education"
    = Some (Profile.education p)
  ∧ read_attr (read_list (read_project s0) s0) s0 vp "projects"
    = Some (Profile.projects p)
  ∧ read_attr (read_list (read_skill s0) s0) s0 vp "skills"
    = Some (Profile.skills p).
Proof. unfold read_profile in Hp. simplify_option_eq. by split_and!. Qed.

Lemma plan_attrs :
  read_attr (read_list read_str s0) s0 vpl "selected_experience_ids"
  = Some (LlmSelectionPlan.selected_experience_ids pl)
  ∧ read_attr (read_list read_str s0) s0 vpl "selected_education_ids"
    = Some (LlmSelectionPlan.selected_education_ids pl)
  ∧ read_attr (read_list read_str s0) s0 vpl "selected_project_ids"
    = Some (LlmSelectionPlan.selected_project_ids pl)
  ∧ read_attr (read_list read_str s0) s0 vpl "selected_skill_labels"
    = Some (LlmSelectionPlan.selected_skill_labels pl)
  ∧ read_attr (read_list read_str s0) s0 vpl "section_order"
    = Some (LlmSelectionPlan.section_order pl).
Proof. unfold read_plan in Hpl. simplify_option_eq. by split_and!. Qed.

Lemma evolves_after_alloc s o s' :
  evolves [] (s ++ [o]) s' → evolves [] s s'.
Proof.
  intros H. eapply evolves_trans; [apply (evolves_alloc [])|done|].
  by intros ? ?%elem_of_nil.
Qed.

Lemma wp_map_experience s (Q : pyval → store → Prop) :
  evolves [] s0 s →
  (∀ m s', evolves [] s s' → length s ≤ m →
           list_on (above m) 3 s' m (VDict <$> _map_experience p pl) →
           Q (PRef m) s') →
  wp (OnStore._map_experience vp vpl) s Q.
Proof.
  intros Hext HQ.
  destruct profile_attrs as (_ & (items & Hi & Hall)%read_attr_inv & _).
  destruct plan_attrs as ((ids & Hd & Hidl)%read_attr_inv & _).
  unfold OnStore._map_experience.
  apply wp_bind. eapply wp_getattr; [done..|].
  apply wp_bind. eapply wp_getattr; [done..|].
  apply wp_bind. eapply (wp_select_items (read_experience s0)); [done..| |].
  { intros v e (Hid & _)%read_experience_attrs. by apply read_attr_inv. }
  intros xs Hxs.
  eapply (wp_mapped_loop (read_experience s0) (OnStore.experience_item vpl)
            (experience_item pl)); [|by apply list_lookup_middle|done| |].
  - eapply evolves_trans; [done|apply (evolves_alloc [])|].
    by intros ? ?%elem_of_nil.
  - intros. by eapply wp_experience_item.
  - intros m s' Hs' Hm HL. rewrite length_app in Hm. simpl in Hm.
    apply HQ; [by eapply evolves_after_alloc|lia|].
    by rewrite map_experience_eq, <- list_fmap_compose.
Qed.

Lemma wp_map_education s (Q : pyval → store → Prop) :
  evolves [] s0 s →
  (∀ m s', evolves [] s s' → length s ≤ m →
           list_on (above m) 3 s' m (VDict <$> _map_education p pl) →
           Q (PRef m) s') →
  wp (OnStore._map_education vp vpl) s Q.
Proof.
  intros Hext HQ.
  destruct profile_attrs as (_ & _ & (items & Hi & Hall)%read_attr_inv & _).
  destruct plan_attrs as (_ & (ids & Hd & Hidl)%read_attr_inv & _).
  unfold OnStore._map_education.
  apply wp_bind. eapply wp_getattr; [done..|].
  apply wp_bind. eapply wp_getattr; [done..|].
  apply wp_bind. eapply (wp_select_items (read_education s0)); [done..| |].
  { intros v e (Hid & _)%read_education_attrs. by apply read_attr_inv. }
  intros xs Hxs.
  eapply (wp_mapped_loop (read_education s0) (OnStore.education_item vpl)
            (education_item pl)); [|by apply list_lookup_middle|done| |].
  - eapply evolves_trans; [done|apply (evolves_alloc [])|].
    by intros ? ?%elem_of_nil.
  - intros. by eapply wp_education_item.
  - intros m s' Hs' Hm HL. rewrite length_app in Hm. simpl in Hm.
    apply HQ; [by eapply evolves_after_alloc|lia|].
    by rewrite map_education_eq, <- list_fmap_compose.
Qed.

Lemma wp_map_projects s (Q : pyval → store → Prop) :
  evolves [] s0 s →
  (∀ m s', evolves [] s s' → length s ≤ m →
           list_on (above m) 3 s' m (VDict <$> _map_projects p pl) →
           Q (PRef m) s') →
  wp (OnStore._map_projects vp vpl) s Q.
Proof.
  intros Hext HQ.
  destruct profile_attrs as (_ & _ & _ & (items & Hi & Hall)%read_attr_inv & _).
  destruct plan_attrs as (_ & _ & (ids & Hd & Hidl)%read_attr_inv & _).
  unfold OnStore._map_projects.
  apply wp_bind. eapply wp_getattr; [done..|].
  apply wp_bind. eapply wp_getattr; [done..|].
  apply wp_bind. eapply (wp_select_items (read_project s0)); [done..| |].
  { intros v e (Hid & _)%read_project_attrs. by apply read_attr_inv. }
  intros xs Hxs.
  eapply (wp_mapped_loop (read_project s0) (OnStore.project_item vpl)
            (project_item pl)); [|by apply list_lookup_middle|done| |].
  - eapply evolves_trans; [done|apply (evolves_alloc [])|].
    by intros ? ?%elem_of_nil.
  - intros. by eapply wp_project_item.
  - intros m s' Hs' Hm HL. rewrite length_app in Hm. simpl in Hm.
    apply HQ; [by eapply evolves_after_alloc|lia|].
    by rewrite map_projects_eq, <- list_fmap_compose.
Qed.

Lemma wp_map_skills s (Q : pyval → store → Prop) :
  evolves [] s0 s →
  (∀ m s', evolves [] s s' → length s ≤ m →
           list_on (above m) 3 s' m (VDict <$> _map_skills p pl) →
           Q (PRef m) s') →
  wp (OnStore._map_skills vp vpl) s Q.
Proof.
  intros Hext HQ.
  destruct profile_attrs
    as (_ & _ & _ & _ & (items & Hi & (li & xs & -> & Hli & Hxs)%read_list_inv)%read_attr_inv).
  destruct plan_attrs
    as (_ & _ & _ & (ids & Hd & (ld & -> & Hld)%read_str_list_inv)%read_attr_inv & _).
  pose proof (lookup_ext _ _ Hext _ _ Hli) as Hli'.
  pose proof (lookup_ext _ _ Hext _ _ Hld) as Hld'.
  set (labels := LlmSelectionPlan.selected_skill_labels pl) in *.
  unfold OnStore._map_skills.
  apply wp_bind. eapply wp_getattr; [done..|].
  apply wp_bind, (wp_reading _ _ (PStr <$> labels)).
  { unfold set_of. cbn [items_of]. rewrite Hld'. cbn [mbind option_bind].
    by rewrite (hashable_strs labels). }
  assert (∀ ys, Forall2 (λ v e, read_skill s0 v = Some e) ys
            (chosen (λ s, Some (Skill.label s)) labels (Profile.skills p)) →
          wp (mapped ← alloc (OList []);
              zs ← iter (PRef (length s));
              for_each (OnStore.skill_item mapped) zs ;; mret mapped)
             (s ++ [OList ys]) Q) as Hloop.
  { intros ys Hys.
    eapply (wp_mapped_loop (read_skill s0) OnStore.skill_item skill_item);
      [|by apply list_lookup_middle|done| |].
    - eapply evolves_trans; [done|apply (evolves_alloc [])|].
      by intros ? ?%elem_of_nil.
    - intros. by eapply wp_skill_item.
    - intros m s' Hs' Hm HL. rewrite length_app in Hm. simpl in Hm.
      apply HQ; [by eapply evolves_after_alloc|lia|].
      by rewrite map_skills_eq, <- list_fmap_compose. }
  apply wp_bind. destruct labels as [|l labels]; cbn [fmap list_fmap truthy].
  - apply wp_bind. eapply wp_getattr; [done..|].
    unfold new_list. apply wp_bind, (wp_reading _ _ xs).
    { simpl. by rewrite Hli'. }
    apply wp_alloc. by apply Hloop.
  - apply wp_bind. eapply wp_getattr; [done..|].
    apply wp_bind, (wp_reading _ _ xs).
    { simpl. by rewrite Hli'. }
    apply wp_bind.
    eapply (wp_filter_member (read_skill s0) (λ s, Some (Skill.label s))
              "label" (l :: labels)); [done| |done|].
    { intros v e (Hl & _)%read_skill_attrs.
      apply read_attr_inv in Hl as (a & Ha & Hs).
      exists a. split; [done|]. by destruct a; simplify_eq/=. }
    intros ys Hys. apply wp_alloc. by apply Hloop.
Qed.

(** *** The header *)

Lemma meta_attrs vm m :
  read_meta s0 vm = Some m →
  read_attr read_str s0 vm "name" = Some (Meta.name m)
  ∧ read_attr read_opt_str s0 vm "headline" = Some (Meta.headline m)
  ∧ read_attr read_opt_str s0 vm "location" = Some (Meta.location m)
  ∧ read_attr read_opt_str s0 vm "email" = Some (Meta.email m)
  ∧ read_attr read_opt_str s0 vm "phone" = Some (Meta.phone m)
  ∧ read_attr read_opt_str s0 vm "website" = Some (Meta.website m)
  ∧ read_attr (read_socials s0) s0 vm "socials" = Some (Meta.socials m).
Proof.
  intros Hm. unfold read_meta in Hm. simplify_option_eq. by split_and!.
Qed.

Lemma reads_as_alloc_list P n s xs L :
  P (length s) = true → Forall2 (reads_as P n s) xs L →
  reads_as P (S n) (s ++ [OList xs]) (PRef (length s)) (VList L).
Proof.
  intros HP Hxs. unfold reads_as. simpl. rewrite HP, list_lookup_middle by done.
  erewrite (proj2 (mapM_Some _ _ _)); [done|].
  eapply Forall2_impl; [done|]. intros v x Hv.
  eapply reads_as_evolves; [done|apply (evolves_alloc [])|].
  by intros ? ?%elem_of_nil.
Qed.

Lemma wp_map_socials c ys ss :
  Forall2 (λ v e, read_social s0 v = Some e) ys ss →
  ∀ s (Q : list pyval → store → Prop),
    evolves [] s0 s → c < length s →
    (∀ rs s', evolves [] s s' →
              Forall2 (reads_as (above c) 4 s') rs (social_item <$> ss) →
              Q rs s') →
    wp (map_each OnStore.social_item ys) s Q.
Proof.
  induction 1 as [|v e ys ss Hv _ IH]; intros s Q Hext Hc HQ.
  - apply wp_ret, HQ; [apply evolves_refl|constructor].
  - cbn [map_each]. unfold read_social in Hv. simplify_option_eq.
    apply wp_bind. unfold OnStore.social_item at 1.
    apply wp_bind. eapply wp_getattr_str; [done..|].
    apply wp_bind. eapply wp_getattr_str; [done..|].
    apply wp_alloc. apply wp_bind.
    apply IH.
    + eapply evolves_trans; [done|apply (evolves_alloc [])|].
      by intros ? ?%elem_of_nil.
    + rewrite length_app. simpl. lia.
    + intros rs s' Hs' Hrs. apply wp_ret, HQ; [by eapply evolves_after_alloc|].
      constructor; [|done].
      eapply reads_as_evolves; [|done|by intros ? ?%elem_of_nil].
      unfold reads_as. simpl.
      rewrite above_lt, list_lookup_middle by done. done.
Qed.

Lemma wp_apply_header s c D (Q : unit → store → Prop) :
  evolves [] s0 s → length s0 ≤ c → dict_on (above c) 5 s c D →
  (∀ s', evolves [] s0 s' → dict_on (above c) 5 s' c (_apply_header D p) →
         Q tt s') →
  wp (OnStore._apply_header (PRef c) vp) s Q.
Proof.
  intros Hext Hc HD HQ.
  destruct profile_attrs as ((vm & Hvm & Hm)%read_attr_inv & _).
  destruct (meta_attrs _ _ Hm)
    as (Hname & Hh & Hl & He & Hph & Hw & (vs & Hvs & Hso)%read_attr_inv).
  unfold OnStore._apply_header. unfold _apply_header in HQ. cbv zeta in HQ.
  apply wp_bind. eapply wp_getattr; [done..|].
  apply wp_bind. eapply wp_getattr_str; [done..|].
  apply wp_bind. eapply wp_dict_setitem; [done|apply reads_as_str|].
  intros s1 Hs1 _ HD1.
  assert (grown s0 s0 s1) as Hg.
  { eapply grown_step; [by split|done|done|apply evolves_refl]. }
  clear dependent s.
  do 5 (apply wp_bind; eapply wp_copy_attr; [apply evolves_refl|done..|];
        clear dependent s1; intros s1 Hg HD1).
  destruct Hg as [Hext _].
  apply wp_bind. eapply wp_getattr; [done..|].
  destruct vs as [|x|l].
  - simplify_eq/=. rewrite <- Hso in HQ.
    apply wp_bind, (wp_reading _ _ false); [done|]. by apply wp_ret, HQ.
  - by simpl in Hso.
  - simpl in Hso. destruct (read_list (read_social s0) s0 (PRef l)) as [ss|] eqn:Ess; simplify_eq/=.
    rewrite <- Hso in HQ.
    apply read_list_inv in Ess as (l' & ys & [= <-] & Hl' & Hys).
    pose proof (lookup_ext _ _ Hext _ _ Hl') as Hl1.
    apply wp_bind, (wp_reading _ _ (truthy ss)).
    { simpl. rewrite Hl1. f_equal. by destruct Hys. }
    destruct ss as [|so ss]; cbn [truthy].
    { by apply wp_ret, HQ. }
    apply wp_bind, (wp_reading _ _ ys); [simpl; by rewrite Hl1|].
    pose proof (dict_on_lt _ _ _ _ _ HD1) as Hlt.
    apply wp_bind. eapply (wp_map_socials c); [done..|].
    intros rs s2 Hs2 Hrs. apply wp_bind, wp_alloc.
    eapply wp_dict_setitem.
    + eapply dict_on_evolves; [done| |apply not_elem_of_nil|by intros ? ?%elem_of_nil].
      eapply evolves_trans; [done|apply (evolves_alloc [])|].
      by intros ? ?%elem_of_nil.
    + apply reads_as_alloc_list; [|done]. apply above_lt. destruct Hs2. lia.
    + intros s3 Hs3 _ HD3. apply HQ; [|done].
      eapply evolves_trans; [|done|].
      * eapply evolves_trans; [|apply (evolves_alloc [])|by intros ? ?%elem_of_nil].
        eapply evolves_trans; [done..|]. by intros ? ?%elem_of_nil.
      * intros ? ->%list_elem_of_singleton. right. lia.
Qed.

(** *** Sections *)

Lemma wp_add_section P n s t D title v x b (Q : unit → store → Prop) :
  dict_on P n s t D → reads_as P n s v x → truth_of s v = Some b →
  (∀ s', evolves [t] s s' → length s' = length s →
         dict_on P n s' t (if b : bool then setitem D title x else D) →
         Q tt s') →
  wp (OnStore.add_section (PRef t) title v) s Q.
Proof.
  intros HD Hv Hb HQ. unfold OnStore.add_section.
  apply wp_bind, (wp_reading _ _ b); [done|]. destruct b.
  - by eapply wp_dict_setitem.
  - apply wp_ret, HQ; [apply evolves_refl|done..].
Qed.

Lemma lookup_two_0 (s : store) a b : (s ++ [a; b]) !! length s = Some a.
Proof. by apply list_lookup_middle. Qed.

Lemma lookup_two_1 (s : store) a b : (s ++ [a; b]) !! S (length s) = Some b.
Proof.
  change (s ++ [a; b]) with (s ++ [a] ++ [b]). rewrite app_assoc.
  apply list_lookup_middle. rewrite length_app. simpl. lia.
Qed.

Lemma insert_two_0 (s : store) a b o :
  <[length s := o]> (s ++ [a; b]) = s ++ [o; b].
Proof. by rewrite insert_app_r_alt, Nat.sub_diag by lia. Qed.

Lemma insert_two_1 (s : store) a b o :
  <[S (length s) := o]> (s ++ [a; b]) = s ++ [a; o].
Proof.
  rewrite insert_app_r_alt by lia.
  by replace (S (length s) - length s) with 1 by lia.
Qed.

Lemma length_two (s : store) a b : length (s ++ [a; b]) = S (S (length s)).
Proof. rewrite length_app. simpl. lia. Qed.

(** The first loop of [_order_sections], on the two new dictionaries. *)
Lemma wp_move_titles s titles : ∀ do dr (Q : unit → store → Prop),
  Q tt (s ++ [ODict (fold_left move_title titles (do, dr)).1;
              ODict (fold_left move_title titles (do, dr)).2]) →
  wp (for_each (OnStore.move_title (PRef (length s)) (PRef (S (length s))))
        (PStr <$> titles))
     (s ++ [ODict do; ODict dr]) Q.
Proof.
  induction titles as [|k titles IH]; intros do dr Q HQ; [done|].
  cbn [fmap list_fmap for_each foldr]. apply wp_bind.
  unfold OnStore.move_title at 1.
  apply wp_bind, (wp_reading _ _ (contains dr k)).
  { unfold key_in, dict_at. simpl. by rewrite lookup_two_1. }
  cbn [fold_left] in HQ. unfold move_title at 2 4 in HQ. unfold pop in HQ.
  unfold contains in *. destruct (get dr k) as [v|] eqn:Ek.
  - apply wp_bind. unfold dict_pop.
    apply wp_bind, (wp_reading _ _ dr).
    { unfold dict_at. simpl. by rewrite lookup_two_1. }
    unfold pop. rewrite Ek. apply wp_bind, wp_update; [rewrite length_two; lia|].
    apply wp_ret. rewrite insert_two_1. unfold dict_setitem.
    apply wp_bind, (wp_reading _ _ do).
    { unfold dict_at. simpl. by rewrite lookup_two_0. }
    apply wp_update; [rewrite length_two; lia|]. rewrite insert_two_0.
    by apply IH.
  - apply wp_ret. by apply IH.
Qed.

(** The second loop of [_order_sections]. *)
Lemma wp_set_rest s dr rest : ∀ do (Q : unit → store → Prop),
  Q tt (s ++ [ODict (fold_left (λ o '(title, entries), setitem o title entries)
                       rest do); ODict dr]) →
  wp (for_each (λ '(title, entries),
                  dict_setitem (PRef (length s)) title entries) rest)
     (s ++ [ODict do; ODict dr]) Q.
Proof.
  induction rest as [|[k v] rest IH]; intros do Q HQ; [done|].
  cbn [for_each foldr]. apply wp_bind. unfold dict_setitem at 1.
  apply wp_bind, (wp_reading _ _ do).
  { unfold dict_at. simpl. by rewrite lookup_two_0. }
  apply wp_update; [rewrite length_two; lia|]. rewrite insert_two_0.
  by apply IH.
Qed.

Lemma rel_dict_mapM P n s d (D : dict) :
  rel_dict (reads_as P n s) d D →
  mapM (λ kv, pair kv.1 <$> read_on P n s kv.2) d = Some D.
Proof.
  intros H. apply mapM_Some. eapply Forall2_impl; [done|].
  intros [k v] [k' w] [Hk Hv]. simpl in *. subst k'.
  unfold reads_as in Hv. by rewrite Hv.
Qed.

Lemma reads_as_dict P n s l d (D : dict) :
  P l = true → s !! l = Some (ODict d) → rel_dict (reads_as P n s) d D →
  reads_as P (S n) s (PRef l) (VDict D).
Proof.
  intros HP Hl Hd. unfold reads_as. cbn [read_on]. rewrite HP, Hl.
  by erewrite rel_dict_mapM.
Qed.

Lemma rel_dict_truthy {V W : Type} (R : V → W → Prop) d D :
  rel_dict R d D → truthy d = truthy D.
Proof. by destruct 1. Qed.

Lemma wp_order_sections s σ D order pref (Q : pyval → store → Prop) :
  evolves [] s0 s → dict_on (above σ) 4 s σ D →
  read_list read_str s0 order = Some pref →
  (∀ r s', evolves [] s s' →
           (∀ c, c < σ →
              reads_as (above c) 5 s' r (VDict (_order_sections D pref))) →
           truth_of s' r = Some (truthy (_order_sections D pref)) →
           Q r s') →
  wp (OnStore._order_sections (PRef σ) order) s Q.
Proof.
  intros Hext HD (lo & -> & Hlo)%read_str_list_inv HQ.
  pose proof (lookup_ext _ _ Hext _ _ Hlo) as Hlo'.
  pose proof (dict_on_lt _ _ _ _ _ HD) as Hσ.
  unfold OnStore._order_sections.
  apply wp_bind, (wp_reading _ _ (truthy pref)).
  { simpl. rewrite Hlo'. f_equal. by destruct pref. }
  destruct pref as [|t pref]; cbn [truthy negb].
  - apply wp_ret, HQ; [apply evolves_refl| |by eapply truth_of_dict_on].
    intros c Hc. eapply dict_on_read; [done|by apply above_lt|].
    intros l _. apply above_le. lia.
  - destruct HD as (_ & d & Hd & Hrel).
    apply wp_bind, wp_alloc.
    apply wp_bind, (wp_reading _ _ d).
    { unfold dict_at. simpl. by rewrite (lookup_app_l_Some _ _ _ _ Hd). }
    apply wp_bind, wp_alloc. rewrite length_app. simpl.
    replace (length s + 1) with (S (length s)) by lia.
    rewrite <- app_assoc. simpl.
    apply wp_bind, (wp_reading _ _ (PStr <$> t :: pref)).
    { simpl. by rewrite (lookup_app_l_Some _ _ _ _ Hlo'). }
    apply wp_bind, wp_move_titles.
    pose proof (rel_dict_fold_move (reads_as (above σ) 4 s) (t :: pref)
                  [] d [] D ltac:(constructor) Hrel) as [Ho Hr].
    assert (_order_sections d (t :: pref)
            = fold_left (λ o '(title, entries), setitem o title entries)
                (fold_left move_title (t :: pref) ([], d)).2
                (fold_left move_title (t :: pref) ([], d)).1) as Hd_eq.
    { unfold _order_sections. cbn [truthy negb].
      by destruct (fold_left move_title (t :: pref) ([], d)). }
    pose proof (rel_dict_order_sections (reads_as (above σ) 4 s) d D
                  (t :: pref) Hrel) as Hord.
    rewrite Hd_eq in Hord. clear Hd_eq.
    destruct (fold_left move_title (t :: pref) ([], d)) as [do dr].
    cbn [fst snd] in *.
    apply wp_bind, (wp_reading _ _ dr).
    { unfold dict_at. simpl. by rewrite lookup_two_1. }
    apply wp_bind, wp_set_rest. apply wp_ret, HQ.
    + split; [rewrite length_app; lia|]. intros l o Hl _.
      by apply lookup_app_l_Some.
    + intros c Hc.
      eapply reads_as_dict; [apply above_lt; lia|apply lookup_two_0|].
      eapply rel_dict_impl; [done|]. intros v w Hv.
      eapply read_on_mono; [done| |lia|].
      * intros l _. apply above_le. lia.
      * intros l o _ Hl. by apply lookup_app_l_Some.
    + simpl. rewrite lookup_two_0. f_equal. by eapply rel_dict_truthy.
Qed.

(** *** The whole mapping *)

Lemma between_upper c σ : between c σ σ = false.
Proof. unfold between. apply bool_decide_eq_false. lia. Qed.

Lemma between_lower c σ : between c σ c = false.
Proof. unfold between. apply bool_decide_eq_false. lia. Qed.

Lemma dict_on_weaken P P' n s t D :
  dict_on P n s t D → P' t = false →
  (∀ l, l < length s → P l = true → P' l = true) →
  dict_on P' n s t D.
Proof.
  intros (_ & d & Ht & Hd) HP' HPP'. split; [done|]. exists d. split; [done|].
  eapply rel_dict_impl; [done|]. intros v w Hv.
  eapply read_on_mono; [done|done|lia|done].
Qed.

Lemma fmap_setitem {V W : Type} (f : V → W) (d : PyDict.t V) k v :
  prod_map id f <$> setitem d k v = setitem (prod_map id f <$> d) k (f v).
Proof.
  induction d as [|[k' v'] d IH]; [done|].
  cbn [setitem]. rewrite fmap_cons. cbn [setitem prod_map fst snd].
  unfold id at 1 2. destruct (decide (k' = k)); [done|].
  rewrite fmap_cons. f_equal. apply IH.
Qed.

Lemma fmap_add_section (S : PyDict.t (list dict)) title entries :
  prod_map id entries_value <$> add_section S title entries
  = if truthy (VDict <$> entries)
    then setitem (prod_map id entries_value <$> S) title (entries_value entries)
    else prod_map id entries_value <$> S.
Proof.
  unfold add_section. destruct entries; [done|]. cbn [truthy fmap list_fmap].
  apply (fmap_setitem entries_value).
Qed.

Lemma rel_dict_fmap {V W : Type} (f : V → W) (d : PyDict.t V) :
  rel_dict (λ v w, w = f v) d (prod_map id f <$> d).
Proof. induction d as [|[k v] d IH]; constructor; done. Qed.

Lemma rel_dict_fmap_inv {V W : Type} (f : V → W) (d : PyDict.t V) D :
  rel_dict (λ v w, w = f v) d D → D = prod_map id f <$> d.
Proof.
  induction 1 as [|[k v] [k' w] d D [Hk Hv] _ IH]; [done|].
  simpl in *. by subst.
Qed.

Lemma order_sections_fmap {V W : Type} (f : V → W) (d : PyDict.t V) pref :
  _order_sections (prod_map id f <$> d) pref
  = prod_map id f <$> _order_sections d pref.
Proof.
  apply rel_dict_fmap_inv, rel_dict_order_sections, rel_dict_fmap.
Qed.

(** Mapping one category and adding its section. *)
Lemma wp_section {B : Type} (mapf : M pyval) entries title c σ H S s
    (k : M B) (Q : B → store → Prop) :
  (∀ s (Q : pyval → store → Prop),
     evolves [] s0 s →
     (∀ m s', evolves [] s s' → length s ≤ m →
              list_on (above m) 3 s' m (VDict <$> entries) → Q (PRef m) s') →
     wp mapf s Q) →
  length s0 ≤ c → c < σ →
  evolves [] s0 s → dict_on (between c σ) 5 s c H →
  dict_on (above σ) 4 s σ (prod_map id entries_value <$> S) →
  (∀ s', evolves [] s0 s' → dict_on (between c σ) 5 s' c H →
         dict_on (above σ) 4 s' σ
           (prod_map id entries_value <$> add_section S title entries) →
         wp k s' Q) →
  wp (e ← mapf; OnStore.add_section (PRef σ) title e ;; k) s Q.
Proof.
  intros Hmap Hc Hσ Hext Hcv Hsec HQ.
  pose proof (dict_on_lt _ _ _ _ _ Hsec) as Hlt.
  apply wp_bind, Hmap; [done|]. intros m s1 Hs1 Hm HL.
  apply wp_bind. eapply wp_add_section.
  - eapply dict_on_evolves; [done..|apply not_elem_of_nil|by intros ? ?%elem_of_nil].
  - eapply list_on_read; [done|apply above_lt; lia|].
    intros l _. apply above_le. lia.
  - by eapply truth_of_list_on.
  - intros s2 Hs2 _ HD2. apply HQ.
    + eapply evolves_trans; [|done|].
      * eapply evolves_trans; [done..|]. by intros ? ?%elem_of_nil.
      * intros ? ->%list_elem_of_singleton. right. lia.
    + eapply dict_on_evolves; [|done| |].
      * eapply dict_on_evolves; [done..|apply not_elem_of_nil|by intros ? ?%elem_of_nil].
      * intros ->%list_elem_of_singleton. lia.
      * intros ? ->%list_elem_of_singleton. apply between_upper.
    + by rewrite fmap_add_section.
Qed.

End run.
End Refinement.

(** * The claims of the specification *)

Section Claims.
Import PyDict PyDictFacts.

(** The mapping of the sample profile under the sample plan. *)
Example sample_mapping :
  build_cv_dict Sample.profile Sample.plan
  = [("cv",
      VDict
        [("name", VStr "Ann"); ("headline", VStr ""); ("email", VStr "a@b");
         ("social_networks",
          VList [VDict [("network", VStr "GitHub"); ("username", VStr "ann")]]);
         ("sections",
          VDict
            [("Skills",
              VList [VDict [("label", VStr "Lang"); ("details", VStr "Python")]]);
             ("Experience",
              VList
                [VDict
                   [("company", VStr "Acme"); ("position", VStr "Dev");
                    ("location", VStr "NYC"); ("start_date", VStr "2020");
                    ("summary", VStr ""); ("highlights", VList [VStr "x"])];
                 VDict [("company", VStr "Beta"); ("position", VStr "Eng")]])])])].
Proof. vm_compute. reflexivity. Qed.

(** An entry whose identifier is the empty string keeps its highlights even
    when the empty string is a key of the override table. *)
Example empty_id_keeps_highlights :
  _resolve_highlights (Some "") ["a"; "b"]
    (LlmSelectionPlan.mk [] [] [] [] (list_to_map [("", ["x"])]) [])
  = ["a"; "b"].
Proof. reflexivity. Qed.

(** An empty override list replaces the highlights by nothing: the mapped
    entry has no [highlights] key. *)
Example empty_override_drops_key :
  get (experience_item
         (LlmSelectionPlan.mk [] [] [] [] (list_to_map [("e1", [])]) [])
         (Experience.mk (Some "e1") "Acme" "Dev" None None None None None
            ["a"; "b"] []))
    "highlights"
  = None.
Proof. vm_compute. reflexivity. Qed.

(** C1.  Selection: under each of the titles Experience, Education and
    Projects the output holds the mapped entries of the chosen profile
    entries, where an empty identifier list chooses every entry and a
    non-empty one chooses exactly the entries whose identifier is in it,
    always in the profile's order; the skills follow the same policy,
    keyed by their label. *)
Theorem selection_policy (p : Profile.t) (pl : LlmSelectionPlan.t) :
  let out := build_cv_dict p pl in
  section_entries out "Experience"
  = VDict ∘ experience_item pl
    <$> chosen Experience.id (LlmSelectionPlan.selected_experience_ids pl)
          (Profile.experience p)
  ∧ section_entries out "Education"
    = VDict ∘ education_item pl
      <$> chosen Education.id (LlmSelectionPlan.selected_education_ids pl)
            (Profile.education p)
  ∧ section_entries out "Projects"
    = VDict ∘ project_item pl
      <$> chosen Project.id (LlmSelectionPlan.selected_project_ids pl)
            (Profile.projects p)
  ∧ section_entries out "Skills"
    = VDict ∘ skill_item
      <$> chosen (λ s, Some (Skill.label s))
            (LlmSelectionPlan.selected_skill_labels pl) (Profile.skills p)
  ∧ (∀ (A : Type) (key : A → option string) (items : list A),
       chosen key [] items = items
       ∧ ∀ i ids x, x ∈ chosen key (i :: ids) items
                    ↔ x ∈ items ∧ ∃ j, key x = Some j ∧ j ∈ i :: ids)
  ∧ (∀ (A : Type) (key : A → option string) ids (items : list A),
       chosen key ids items `sublist_of` items).
Proof.
  cbv zeta. rewrite !section_entries_build. unfold mapped_entries. simpl.
  rewrite map_experience_eq, map_education_eq, map_projects_eq, map_skills_eq.
  rewrite !list_fmap_compose. split_and!; try done.
  - intros A key items. split; [done|]. intros i ids x. unfold chosen.
    rewrite list_elem_of_filter. unfold id_selected.
    destruct (key x) as [j|].
    + split; [intros [??]; split; [done|by exists j]|].
      intros [? (j' & [= <-] & ?)]. done.
    + split; [by intros [[] _]|]. by intros [_ (j & ? & _)].
  - intros A key ids items. unfold chosen. destruct ids; [done|].
    apply sublist_filter.
Qed.

(** C2.  Highlights: for an experience, education or project entry whose
    non-empty identifier is a key of [bullet_overrides], the highlights of
    the mapped entry are exactly the override list; an entry whose
    identifier is absent, empty or not a key keeps its own highlights; and
    every other key of the mapped entry holds the profile's value. *)
Theorem highlight_overrides (pl : LlmSelectionPlan.t) :
  (∀ exp,
     highlights_law pl (Experience.id exp) (Experience.highlights exp)
       (experience_item pl exp)
     ∧ ∀ k, k ≠ "highlights" →
         get (experience_item pl exp) k = source_of (experience_fields exp) k)
  ∧ (∀ edu,
     highlights_law pl (Education.id edu) (Education.highlights edu)
       (education_item pl edu)
     ∧ ∀ k, k ≠ "highlights" →
         get (education_item pl edu) k = source_of (education_fields edu) k)
  ∧ (∀ proj,
     highlights_law pl (Project.id proj) (Project.highlights proj)
       (project_item pl proj)
     ∧ ∀ k, k ≠ "highlights" →
         get (project_item pl proj) k = source_of (project_fields proj) k).
Proof.
  assert (∀ item i original,
    get item "highlights" = None →
    highlights_law pl i original (set_highlights item i original pl)) as Hlaw.
  { intros item i original Hnone. unfold highlights_law.
    rewrite entry_highlights_set by done. unfold _resolve_highlights.
    split_and!.
    - intros x ov -> Hx Hov. by rewrite decide_False, Hov.
    - intros [->| ->]; [done|]. by rewrite decide_True.
    - intros x -> Hov. rewrite Hov. by case_decide. }
  split_and!.
  - intros exp. split; [|intros k; apply experience_item_get].
    apply Hlaw. destruct exp. simpl. lookup_cases.
  - intros edu. split; [|intros k; apply education_item_get].
    apply Hlaw. destruct edu. simpl. lookup_cases.
  - intros proj. split; [|intros k; apply project_item_get].
    apply Hlaw. destruct proj. simpl. lookup_cases.
Qed.

(** C3.  Omission: [_set_if_present] writes a value unless it is [None] or
    the empty list; every key of a mapped entry and of the header holds
    its source value under that rule, so a key is absent exactly when its
    source is [None] or the empty list (highlights and social networks
    included); and the required fields are always written. *)
Theorem omission_rule (p : Profile.t) (pl : LlmSelectionPlan.t) :
  (∀ (target : dict) key v k,
     get (_set_if_present target key v) k
     = if decide (key = k)
       then match emitted v with Some x => Some x | None => get target k end
       else get target k)
  ∧ (∀ o, emitted o = None ↔ o = None ∨ o = Some (VList []))
  ∧ (∀ o x, emitted o = Some x ↔ o = Some x ∧ x ≠ VList [])
  ∧ (∀ exp k, get (experience_item pl exp) k
              = emitted (source_of (experience_sources pl exp) k))
  ∧ (∀ edu k, get (education_item pl edu) k
              = emitted (source_of (education_sources pl edu) k))
  ∧ (∀ proj k, get (project_item pl proj) k
               = emitted (source_of (project_sources pl proj) k))
  ∧ (∀ skill k, get (skill_item skill) k = source_of (skill_fields skill) k)
  ∧ (∀ k, k ≠ "sections" →
       get (cv_of (build_cv_dict p pl)) k
       = emitted (source_of (header_sources (Profile.meta p)) k))
  ∧ (∀ exp,
       get (experience_item pl exp) "company"
       = Some (VStr (Experience.company exp))
       ∧ get (experience_item pl exp) "position"
         = Some (VStr (Experience.position exp)))
  ∧ (∀ edu,
       get (education_item pl edu) "institution"
       = Some (VStr (Education.institution edu))
       ∧ get (education_item pl edu) "area" = Some (VStr (Education.area edu)))
  ∧ (∀ proj, get (project_item pl proj) "name" = Some (VStr (Project.name proj)))
  ∧ (∀ skill,
       get (skill_item skill) "label" = Some (VStr (Skill.label skill))
       ∧ get (skill_item skill) "details" = Some (VStr (Skill.details skill)))
  ∧ get (cv_of (build_cv_dict p pl)) "name"
    = Some (VStr (Meta.name (Profile.meta p))).
Proof.
  split_and!.
  - intros target key v k. rewrite get_set_if_present.
    by destruct v as [[s|[|x l]|d]|].
  - intros [[s|[|x l]|d]|]; simpl; intuition congruence.
  - intros [[s|[|x l]|d]|] y; simpl; intuition congruence.
  - apply experience_item_emitted.
  - apply education_item_emitted.
  - apply project_item_emitted.
  - apply skill_item_get.
  - intros k Hk. rewrite cv_of_build, get_build_cv, decide_False by done.
    apply get_apply_header.
  - intros exp. by rewrite !experience_item_get.
  - intros edu. by rewrite !education_item_get.
  - intros proj. by rewrite !project_item_get.
  - intros skill. by rewrite !skill_item_get.
  - rewrite cv_of_build, get_build_cv, decide_False by done.
    by rewrite get_apply_header.
Qed.

(** C4.  Sections: a title is a key of the output's sections exactly when
    its category has at least one mapped entry, and its value is then the
    list of those entries; a profile without skills has no Skills section,
    whatever labels the plan selects. *)
Theorem sections_nonempty (p : Profile.t) (pl : LlmSelectionPlan.t)
    (title : string) :
  let out := build_cv_dict p pl in
  (title ∈ section_titles out ↔ mapped_entries p pl title ≠ [])
  ∧ (section_value out title = None ↔ mapped_entries p pl title = [])
  ∧ (∀ v, section_value out title = Some v →
       title ∈ canonical_titles
       ∧ ∃ entry entries,
           mapped_entries p pl title = entry :: entries
           ∧ v = entries_value (entry :: entries))
  ∧ (Profile.skills p = [] → "Skills" ∉ section_titles out).
Proof.
  cbv zeta.
  assert (∀ t, t ∈ section_titles (build_cv_dict p pl)
               ↔ mapped_entries p pl t ≠ []) as Htitles.
  { intros t. rewrite section_titles_build, <- contains_true. unfold contains.
    rewrite get_order_sections, get_build_sections by apply wf_build_sections.
    by destruct (mapped_entries p pl t). }
  rewrite section_value_build. split_and!.
  - apply Htitles.
  - by destruct (mapped_entries p pl title).
  - intros v Hv. destruct (mapped_entries p pl title) as [|e es] eqn:E; [done|].
    split; [|exists e, es; by simplify_eq].
    unfold mapped_entries, canonical_titles in *.
    repeat case_decide; subst; try done; rewrite !elem_of_cons; eauto 10.
  - intros Hskills. rewrite Htitles. intros Hne. apply Hne.
    unfold mapped_entries. simpl. rewrite map_skills_eq, Hskills.
    by destruct (LlmSelectionPlan.selected_skill_labels pl).
Qed.

(** C5.  Ordering: on a dictionary of sections, [_order_sections] puts the
    sections named in the preferred list first, in the order of their
    first occurrence in that list and skipping the names that are no
    section, then the remaining sections in their original order; it
    keeps every section's entries and only permutes the items; an empty
    preferred list changes nothing; the sections that [build_cv_dict]
    builds form such a dictionary, in canonical order; and the preferred
    list Skills, Education on four sections gives Skills, Education,
    Experience, Projects. *)
Theorem order_sections_permutes {V : Type} (sections : PyDict.t V)
    (preferred_order : list string) :
  wf sections →
  let out := _order_sections sections preferred_order in
  keys out
  = filter (λ k, k ∈ keys sections) (first_occurrences preferred_order)
    ++ filter (λ k, k ∉ preferred_order) (keys sections)
  ∧ (∀ k, get out k = get sections k)
  ∧ out ≡ₚ sections
  ∧ (preferred_order = [] → out = sections)
  ∧ (NoDup preferred_order →
     first_occurrences preferred_order = preferred_order)
  ∧ (∀ p pl, wf (build_sections p pl)
             ∧ keys (build_sections p pl) `sublist_of` canonical_titles)
  ∧ (∀ e p d s : V,
       keys (_order_sections
               [("Experience", e); ("Projects", p); ("Education", d);
                ("Skills", s)] ["Skills"; "Education"])
       = ["Skills"; "Education"; "Experience"; "Projects"]).
Proof.
  intros Hwf. cbv zeta. split_and!.
  - by apply keys_order_sections.
  - intros k. by apply get_order_sections.
  - apply same_items; [by apply wf_order_sections|done|].
    intros k. by apply get_order_sections.
  - by intros ->.
  - apply first_occurrences_id.
  - intros p pl. split; [apply wf_build_sections|].
    unfold build_sections, add_section, keys, canonical_titles.
    destruct (_map_experience p pl), (_map_projects p pl),
      (_map_education p pl), (_map_skills p pl); simpl;
      repeat first [apply sublist_nil_l | apply sublist_skip | apply sublist_cons].
  - done.
Qed.

(** The preferred list Skills, Education on four sections. *)
Lemma order_sections_permutes_witness :
  keys (_order_sections
          [("Experience", 1); ("Projects", 2); ("Education", 3); ("Skills", 4)]
          ["Skills"; "Education"])
  = ["Skills"; "Education"; "Experience"; "Projects"]
  ∧ _order_sections
      [("Experience", 1); ("Projects", 2); ("Education", 3); ("Skills", 4)]
      ["Skills"; "Education"]
    ≡ₚ [("Experience", 1); ("Projects", 2); ("Education", 3); ("Skills", 4)].
Proof.
  assert (wf [("Experience", 1); ("Projects", 2); ("Education", 3); ("Skills", 4)])
    as Hwf.
  { apply (bool_decide_unpack _). vm_compute. exact I. }
  destruct (order_sections_permutes
              [("Experience", 1); ("Projects", 2); ("Education", 3); ("Skills", 4)]
              ["Skills"; "Education"] Hwf) as (_ & _ & Hperm & _).
  split; [reflexivity|exact Hperm].
Defined.



(** C8.  Header: the output's [cv] holds the profile's name under [name];
    headline, location, email, phone and website are present exactly when
    the profile has them, with the profile's value; and
    [social_networks] is the list of network/username pairs of the
    profile's social networks, in order, when there is at least one, and
    is absent otherwise. *)
Theorem header_mapping (p : Profile.t) (pl : LlmSelectionPlan.t) :
  let cv := cv_of (build_cv_dict p pl) in
  let meta := Profile.meta p in
  get cv "name" = Some (VStr (Meta.name meta))
  ∧ get cv "headline" = VStr <$> Meta.headline meta
  ∧ get cv "location" = VStr <$> Meta.location meta
  ∧ get cv "email" = VStr <$> Meta.email meta
  ∧ get cv "phone" = VStr <$> Meta.phone meta
  ∧ get cv "website" = VStr <$> Meta.website meta
  ∧ get cv "social_networks"
    = match Meta.socials meta with
      | Some (s :: ss) =>
          Some (VList
                  ((λ x, VDict [("network", VStr (Social.network x));
                                ("username", VStr (Social.username x))])
                   <$> s :: ss))
      | _ => None
      end
  ∧ (Meta.socials meta = None ∨ Meta.socials meta = Some [] →
     get cv "social_networks" = None).
Proof.
  cbv zeta. rewrite cv_of_build, !get_build_cv. simpl.
  rewrite !get_apply_header. unfold source_of, header_sources, header_fields.
  simpl. destruct (Profile.meta p) as [n h l e ph w so]. simpl.
  split_and!; try by (destruct h, l, e, ph, w).
  - by destruct so as [[|s ss]|].
  - by intros [->| ->].
Qed.

(** C9.  Empty strings: [_set_if_present] writes an empty string like any
    other string, so every header field and every field of a chosen
    experience, education or project entry whose source is the empty
    string is a key of the output with the empty string as its value. *)
Theorem empty_string_written (p : Profile.t) (pl : LlmSelectionPlan.t) :
  let out := build_cv_dict p pl in
  (∀ (target : dict) key,
     _set_if_present target key (Some (VStr ""))
     = setitem target key (VStr ""))
  ∧ (∀ k, source_of (header_fields (Profile.meta p)) k = Some (VStr "") →
       get (cv_of out) k = Some (VStr ""))
  ∧ (∀ exp k,
       exp ∈ chosen Experience.id
               (LlmSelectionPlan.selected_experience_ids pl)
               (Profile.experience p) →
       source_of (experience_fields exp) k = Some (VStr "") →
       VDict (experience_item pl exp) ∈ section_entries out "Experience"
       ∧ get (experience_item pl exp) k = Some (VStr ""))
  ∧ (∀ edu k,
       edu ∈ chosen Education.id
               (LlmSelectionPlan.selected_education_ids pl)
               (Profile.education p) →
       source_of (education_fields edu) k = Some (VStr "") →
       VDict (education_item pl edu) ∈ section_entries out "Education"
       ∧ get (education_item pl edu) k = Some (VStr ""))
  ∧ (∀ proj k,
       proj ∈ chosen Project.id
                (LlmSelectionPlan.selected_project_ids pl)
                (Profile.projects p) →
       source_of (project_fields proj) k = Some (VStr "") →
       VDict (project_item pl proj) ∈ section_entries out "Projects"
       ∧ get (project_item pl proj) k = Some (VStr "")).
Proof.
  cbv zeta. rewrite !section_entries_build. unfold mapped_entries. simpl.
  rewrite map_experience_eq, map_education_eq, map_projects_eq.
  split_and!.
  - done.
  - intros k Hk. rewrite cv_of_build, get_build_cv.
    destruct (decide (k = "sections")) as [->|Hne]; [done|].
    rewrite get_apply_header. unfold source_of, header_sources in *.
    rewrite get_app.
    destruct (get (header_fields (Profile.meta p)) k) as [[?|]|];
      by simplify_eq/=.
  - intros exp k Hin Hk. split.
    + rewrite <- list_fmap_compose. apply list_elem_of_fmap. by exists exp.
    + destruct (decide (k = "highlights")) as [->|Hne]; [done|].
      by rewrite experience_item_get.
  - intros edu k Hin Hk. split.
    + rewrite <- list_fmap_compose. apply list_elem_of_fmap. by exists edu.
    + destruct (decide (k = "highlights")) as [->|Hne]; [done|].
      by rewrite education_item_get.
  - intros proj k Hin Hk. split.
    + rewrite <- list_fmap_compose. apply list_elem_of_fmap. by exists proj.
    + destruct (decide (k = "highlights")) as [->|Hne]; [done|].
      by rewrite project_item_get.
Qed.

(** C10.  Shape: the result of [build_cv_dict] has the single key [cv];
    its [cv] mapping always has the key [name]; and when no category has
    a mapped entry the [cv] mapping has no [sections] key, while a
    [sections] key that is present holds a non-empty mapping. *)
Theorem output_shape (p : Profile.t) (pl : LlmSelectionPlan.t) :
  let out := build_cv_dict p pl in
  keys out = ["cv"]
  ∧ get out "cv" = Some (VDict (cv_of out))
  ∧ get (cv_of out) "name" = Some (VStr (Meta.name (Profile.meta p)))
  ∧ (_map_experience p pl = [] → _map_projects p pl = [] →
     _map_education p pl = [] → _map_skills p pl = [] →
     get (cv_of out) "sections" = None)
  ∧ (∀ v, get (cv_of out) "sections" = Some v →
       ∃ section sections, v = VDict (section :: sections)).
Proof.
  cbv zeta. split_and!; [done|done|..].
  - rewrite cv_of_build, get_build_cv, decide_False by done.
    by rewrite get_apply_header.
  - intros He Hp He' Hs. rewrite cv_of_build, get_build_cv, decide_True by done.
    unfold build_sections. rewrite He, Hp, He', Hs. unfold add_section. simpl.
    by rewrite (proj2 (order_sections_nil_keys [] _ (NoDup_nil_2 (A:=string))) eq_refl).
  - intros v. rewrite cv_of_build, get_build_cv, decide_True by done.
    destruct (_order_sections _ _) as [|kv ordered]; [done|].
    intros [= <-]. unfold sections_value. simpl. eauto.
Qed.
End Claims.

Section Fresh.
Import PyDict PyDictFacts Store Reading HeapFacts Refinement.

(** The run of [build_cv_dict] builds its result out of objects of its own:
    the result is read in full through locations that the store of the
    inputs does not have. *)
Lemma wp_build_cv_dict_fresh (s0 : store) (vp vpl : pyval)
    (p : Profile.t) (pl : LlmSelectionPlan.t) :
  read_profile s0 vp = Some p →
  read_plan s0 vpl = Some pl →
  wp (OnStore.build_cv_dict vp vpl) s0
    (λ r s', evolves [] s0 s'
             ∧ read_on (λ l, bool_decide (length s0 ≤ l)) 7 s' r
               = Some (VDict (build_cv_dict p pl))).
Proof.
  intros Hp Hpl. unfold OnStore.build_cv_dict.
  apply wp_bind, wp_alloc. set (c := length s0).
  assert (evolves [] s0 (s0 ++ [ODict []])) as Hext1 by apply evolves_alloc.
  apply wp_bind. eapply (wp_apply_header s0 vp p Hp _ c []); [done|done| |].
  { apply dict_on_alloc; [apply above_self|constructor]. }
  intros s2 Hext2 Hcv2. apply wp_bind, wp_alloc. set (σ := length s2).
  assert (c < σ) as Hcσ by (by eapply dict_on_lt).
  assert (evolves [] s0 (s2 ++ [ODict []])) as Hext3.
  { eapply evolves_trans; [done|apply (evolves_alloc [])|].
    by intros ? ?%elem_of_nil. }
  assert (dict_on (between c σ) 5 (s2 ++ [ODict []]) c (_apply_header [] p))
    as Hcv3.
  { eapply dict_on_evolves;
      [|apply (evolves_alloc [])|apply not_elem_of_nil|by intros ? ?%elem_of_nil].
    eapply dict_on_weaken; [done|apply between_lower|].
    intros l Hl. unfold above, between. rewrite !bool_decide_eq_true.
    unfold σ. lia. }
  assert (dict_on (above σ) 4 (s2 ++ [ODict []]) σ
            (prod_map id entries_value <$> [])) as Hsec3.
  { apply dict_on_alloc; [apply above_self|constructor]. }
  revert Hext3 Hcv3 Hsec3. generalize (s2 ++ [ODict []]). intros s3 Hext3 Hcv3 Hsec3.
  eapply (wp_section s0 _ (_map_experience p pl) "Experience" c σ);
    [apply (wp_map_experience s0 vp vpl p pl Hp Hpl)|unfold c; lia|done..|].
  clear dependent s3. intros s3 Hext3 Hcv3 Hsec3.
  eapply (wp_section s0 _ (_map_projects p pl) "Projects" c σ);
    [apply (wp_map_projects s0 vp vpl p pl Hp Hpl)|unfold c; lia|done..|].
  clear dependent s3. intros s3 Hext3 Hcv3 Hsec3.
  eapply (wp_section s0 _ (_map_education p pl) "Education" c σ);
    [apply (wp_map_education s0 vp vpl p pl Hp Hpl)|unfold c; lia|done..|].
  clear dependent s3. intros s3 Hext3 Hcv3 Hsec3.
  eapply (wp_section s0 _ (_map_skills p pl) "Skills" c σ);
    [apply (wp_map_skills s0 vp vpl p pl Hp Hpl)|unfold c; lia|done..|].
  clear dependent s3. intros s3 Hext3 Hcv3 Hsec3.
  fold (build_sections p pl) in Hsec3.
  destruct (plan_attrs s0 vpl pl Hpl)
    as (_ & _ & _ & _ & (order & Ho & Hpref)%read_attr_inv).
  apply wp_bind. eapply wp_getattr; [done..|].
  apply wp_bind. eapply wp_order_sections; [done..|].
  intros r s4 Hs4 Hr Ht. rewrite order_sections_fmap in Hr, Ht.
  set (ordered := _order_sections (build_sections p pl)
                    (LlmSelectionPlan.section_order pl)) in *.
  assert (truthy (prod_map id entries_value <$> ordered) = truthy ordered)
    as Htruthy by by destruct ordered.
  rewrite Htruthy in Ht.
  apply wp_bind. eapply (wp_add_section (above c) 5); [|by apply Hr|done|].
  { eapply dict_on_weaken; [|apply above_self|].
    - eapply dict_on_evolves; [done..|apply not_elem_of_nil|by intros ? ?%elem_of_nil].
    - intros l _. unfold above, between. rewrite !bool_decide_eq_true. lia. }
  intros s5 Hs5 _ Hcv5. apply wp_alloc.
  assert (evolves [] s0 s5) as Hext5.
  { eapply evolves_trans; [|done|].
    - eapply evolves_trans; [done..|]. by intros ? ?%elem_of_nil.
    - intros ? ->%list_elem_of_singleton. by right. }
  split.
  - eapply evolves_trans; [done|apply (evolves_alloc [])|].
    by intros ? ?%elem_of_nil.
  - eapply (reads_as_dict (λ l, bool_decide (length s0 ≤ l)));
      [|by apply list_lookup_middle|].
    { apply bool_decide_eq_true. destruct Hext5. lia. }
    constructor; [|constructor]. split; [done|]. simpl.
    eapply reads_as_evolves; [|apply (evolves_alloc [])|by intros ? ?%elem_of_nil].
    eapply dict_on_read; [| |].
    + unfold build_cv. fold ordered. unfold sections_value. exact Hcv5.
    + apply bool_decide_eq_true. unfold c. lia.
    + intros l _. unfold above. rewrite !bool_decide_eq_true. unfold c. lia.
Qed.


End Fresh.

Section Purity.
Import Store Reading HeapFacts Refinement.


End Purity.

(** * Further properties of the mapper and the assembler *)

Section MoreOrdering.
Import PyDict PyDictFacts.
Context {V : Type}.
Implicit Types (d sections : PyDict.t V).

(** Two dictionaries with the same keys in the same order and the same
    lookups are equal. *)
Lemma dict_eq d1 : ∀ d2,
  wf d1 → keys d1 = keys d2 → (∀ k, get d1 k = get d2 k) → d1 = d2.
Proof.
  unfold wf, keys. induction d1 as [|[k v] d1 IH]; intros [|[k' v'] d2] Hwf Hk Hg;
    try done.
  rewrite !fmap_cons in Hk. simpl in Hk. injection Hk as -> Hk.
  rewrite fmap_cons in Hwf. apply NoDup_cons in Hwf as [Hn Hwf]. simpl in Hn.
  pose proof (Hg k') as Hv. simpl in Hv. rewrite !decide_True in Hv by done.
  injection Hv as ->. f_equal. apply IH; [done..|].
  intros k. destruct (decide (k = k')) as [->|Hne].
  - rewrite (proj2 (get_None d1 k')) by done.
    symmetry. apply get_None. unfold keys. by rewrite <- Hk.
  - pose proof (Hg k) as Hgk. simpl in Hgk.
    by rewrite !decide_False in Hgk by done.
Qed.

Lemma filter_none {A : Type} (P : A → Prop) `{∀ x, Decision (P x)} (l : list A) :
  Forall (λ x, ¬ P x) l → filter P l = [].
Proof. induction 1; [done|]. by rewrite filter_cons_False. Qed.

Lemma filter_ext_in {A : Type} (P Q : A → Prop)
    `{∀ x, Decision (P x), ∀ x, Decision (Q x)} (l : list A) :
  (∀ x, x ∈ l → P x ↔ Q x) → filter P l = filter Q l.
Proof.
  induction l as [|x l IH]; intros HPQ; [done|].
  rewrite !filter_cons. rewrite IH by (intros y Hy; apply HPQ; by right).
  apply decide_ext. apply HPQ. left.
Qed.

Lemma keys_order_known sections pref k :
  wf sections → k ∈ keys (_order_sections sections pref) ↔ k ∈ keys sections.
Proof.
  intros Hwf. rewrite <- !contains_true. unfold contains.
  by rewrite get_order_sections.
Qed.

(** X1.  Ordering a dictionary of sections a second time with the same
    preferred list changes nothing. *)
Theorem order_sections_idempotent (sections : PyDict.t V)
    (preferred_order : list string) :
  wf sections →
  _order_sections (_order_sections sections preferred_order) preferred_order
  = _order_sections sections preferred_order.
Proof.
  intros Hwf. pose proof (wf_order_sections sections preferred_order Hwf) as Hwf'.
  apply dict_eq; [by apply wf_order_sections| |].
  - rewrite (keys_order_sections (_order_sections sections preferred_order)) by done.
    rewrite (keys_order_sections sections preferred_order Hwf).
    rewrite filter_app. f_equal.
    + apply list_filter_iff. intros k.
      rewrite <- (keys_order_sections sections preferred_order Hwf).
      by apply keys_order_known.
    + rewrite filter_none.
      * simpl. apply filter_all, Forall_forall. intros k.
        rewrite list_elem_of_filter. tauto.
      * apply Forall_forall. intros k. rewrite list_elem_of_filter.
        rewrite first_occurrences_elem. tauto.
  - intros k. by rewrite !get_order_sections.
Qed.

(** X2.  The names of the preferred list that are no section, and the
    repetitions of a name, have no effect: the result is the one for the
    list of the first occurrences of the names that are sections.  A
    preferred list without any section name changes nothing. *)
Theorem order_sections_known_names (sections : PyDict.t V)
    (preferred_order : list string) :
  wf sections →
  _order_sections sections preferred_order
  = _order_sections sections
      (filter (λ k, k ∈ keys sections) (first_occurrences preferred_order))
  ∧ ((∀ k, k ∈ preferred_order → k ∉ keys sections) →
     _order_sections sections preferred_order = sections).
Proof.
  intros Hwf.
  set (known := filter (λ k, k ∈ keys sections) (first_occurrences preferred_order)).
  assert (_order_sections sections preferred_order
          = _order_sections sections known) as Heq.
  { apply dict_eq; [by apply wf_order_sections| |].
    - rewrite !keys_order_sections by done.
      assert (NoDup known) as Hnd by apply NoDup_filter, first_occurrences_NoDup.
      rewrite (first_occurrences_id known Hnd). f_equal.
      + unfold known. rewrite list_filter_filter. apply list_filter_iff. tauto.
      + apply filter_ext_in. intros k Hk. unfold known.
        rewrite list_elem_of_filter, first_occurrences_elem. tauto.
    - intros k. by rewrite !get_order_sections. }
  split; [exact Heq|]. intros Hnone. rewrite Heq.
  assert (known = []) as ->; [|done].
  apply filter_none, Forall_forall. intros k Hk Hin.
  apply (proj1 (first_occurrences_elem k preferred_order)) in Hk.
  by apply (Hnone k).
Qed.
End MoreOrdering.

(** Reordering by a list with an unknown and a repeated name. *)
Lemma order_sections_idempotent_witness :
  _order_sections
    (_order_sections [("Experience", 1); ("Skills", 2)] ["Skills"; "Nope"; "Skills"])
    ["Skills"; "Nope"; "Skills"]
  = _order_sections [("Experience", 1); ("Skills", 2)] ["Skills"; "Nope"; "Skills"].
Proof.
  apply (order_sections_idempotent [("Experience", 1); ("Skills", 2)]
           ["Skills"; "Nope"; "Skills"]).
  apply (bool_decide_unpack _). vm_compute. exact I.
Defined.

Lemma order_sections_known_names_witness :
  _order_sections [("Experience", 1); ("Skills", 2)] ["Skills"; "Nope"; "Skills"]
  = _order_sections [("Experience", 1); ("Skills", 2)]
      (filter (λ k, k ∈ PyDict.keys [("Experience", 1); ("Skills", 2)])
         (first_occurrences ["Skills"; "Nope"; "Skills"]))
  ∧ ((∀ k, k ∈ ["Skills"; "Nope"; "Skills"]
           → k ∉ PyDict.keys [("Experience", 1); ("Skills", 2)]) →
     _order_sections [("Experience", 1); ("Skills", 2)] ["Skills"; "Nope"; "Skills"]
     = [("Experience", 1); ("Skills", 2)]).
Proof.
  apply (order_sections_known_names [("Experience", 1); ("Skills", 2)]
           ["Skills"; "Nope"; "Skills"]).
  apply (bool_decide_unpack _). vm_compute. exact I.
Defined.

Section MoreSelection.
Import PyDict PyDictFacts.

Lemma chosen_elem {A : Type} (key : A → option string) ids (items : list A) x :
  x ∈ chosen key ids items ↔ x ∈ items ∧ (ids = [] ∨ id_selected ids (key x)).
Proof.
  unfold chosen. destruct ids as [|i ids].
  - split; [by auto|]. by intros [? _].
  - rewrite list_elem_of_filter. split; [by intros [??]; auto|].
    intros [? [?|?]]; done.
Qed.

Lemma chosen_nonempty {A : Type} (key : A → option string) ids (items : list A) :
  chosen key ids items ≠ []
  ↔ ∃ x, x ∈ items ∧ (ids = [] ∨ id_selected ids (key x)).
Proof.
  split.
  - destruct (chosen key ids items) as [|x l] eqn:E; [done|]. intros _.
    exists x. apply chosen_elem. rewrite E. left.
  - intros (x & Hx). apply chosen_elem in Hx. intros E. rewrite E in Hx.
    by apply elem_of_nil in Hx.
Qed.

(** X3.  A non-empty selection is read as a set: two non-empty identifier
    lists with the same members, in any order and with any repetitions,
    select the same entries. *)
Theorem select_items_by_set {A : Type} `{HasId A} (items : list A)
    (ids ids' : list string) :
  ids ≠ [] → ids' ≠ [] → (∀ i, i ∈ ids ↔ i ∈ ids') →
  _select_items items ids = _select_items items ids'.
Proof.
  intros Hne Hne' Hsame. rewrite !select_items_chosen. unfold chosen.
  destruct ids as [|i ids], ids' as [|i' ids']; try done.
  apply list_filter_iff. intros x. unfold id_selected.
  destruct (id_of x); [apply Hsame|done].
Qed.

(** The identifiers of the sample profile, in two orders and with a
    repetition. *)
Lemma select_items_by_set_witness :
  _select_items (Profile.experience Sample.profile) ["e1"; "e2"]
  = _select_items (Profile.experience Sample.profile) ["e2"; "e1"; "e1"].
Proof.
  apply (select_items_by_set (Profile.experience Sample.profile)
           ["e1"; "e2"] ["e2"; "e1"; "e1"]); [done|done|].
  intros i. rewrite !elem_of_cons, !elem_of_nil. tauto.
Defined.

(** X4.  Selecting again with the same identifiers changes nothing; the
    selected entries are a sublist of the given ones, so no entry is
    repeated or moved; and a non-empty selection never keeps an entry
    without an identifier. *)
Theorem select_items_idempotent {A : Type} `{HasId A} (items : list A)
    (ids : list string) :
  _select_items (_select_items items ids) ids = _select_items items ids
  ∧ _select_items items ids `sublist_of` items
  ∧ (ids ≠ [] → ∀ x, x ∈ _select_items items ids →
       ∃ i, id_of x = Some i ∧ i ∈ ids).
Proof.
  rewrite !select_items_chosen. unfold chosen. destruct ids as [|i ids].
  - done.
  - split_and!.
    + rewrite list_filter_filter. apply list_filter_iff. tauto.
    + apply sublist_filter.
    + intros _ x [Hsel _]%list_elem_of_filter. unfold id_selected in Hsel.
      destruct (id_of x) as [j|]; [by exists j|done].
Qed.

Lemma title_present p pl title :
  title ∈ section_titles (build_cv_dict p pl) ↔ mapped_entries p pl title ≠ [].
Proof.
  rewrite section_titles_build, <- contains_true. unfold contains.
  rewrite get_order_sections, get_build_sections by apply wf_build_sections.
  by destruct (mapped_entries p pl title).
Qed.

Lemma fmap_nonempty {A B : Type} (f : A → B) (l : list A) :
  f <$> l ≠ [] ↔ l ≠ [].
Proof. by destruct l. Qed.

(** X5.  A section is in the output exactly when its category has an entry
    that the plan selects: any entry when the selection is empty, an entry
    with a listed identifier (or label) otherwise.  So a non-empty selection
    that matches nothing leaves the section out; it does not fall back to
    all entries. *)
Theorem section_present_iff (p : Profile.t) (pl : LlmSelectionPlan.t) :
  let out := build_cv_dict p pl in
  ("Experience" ∈ section_titles out
   ↔ ∃ e, e ∈ Profile.experience p
          ∧ (LlmSelectionPlan.selected_experience_ids pl = []
             ∨ id_selected (LlmSelectionPlan.selected_experience_ids pl)
                 (Experience.id e)))
  ∧ ("Education" ∈ section_titles out
     ↔ ∃ e, e ∈ Profile.education p
            ∧ (LlmSelectionPlan.selected_education_ids pl = []
               ∨ id_selected (LlmSelectionPlan.selected_education_ids pl)
                   (Education.id e)))
  ∧ ("Projects" ∈ section_titles out
     ↔ ∃ e, e ∈ Profile.projects p
            ∧ (LlmSelectionPlan.selected_project_ids pl = []
               ∨ id_selected (LlmSelectionPlan.selected_project_ids pl)
                   (Project.id e)))
  ∧ ("Skills" ∈ section_titles out
     ↔ ∃ s, s ∈ Profile.skills p
            ∧ (LlmSelectionPlan.selected_skill_labels pl = []
               ∨ Skill.label s ∈ LlmSelectionPlan.selected_skill_labels pl)).
Proof.
  cbv zeta. rewrite !title_present. unfold mapped_entries. simpl.
  rewrite map_experience_eq, map_education_eq, map_projects_eq, map_skills_eq.
  rewrite !fmap_nonempty, !chosen_nonempty. done.
Qed.

(** X6.  The overrides of the plan matter only at the identifiers of the
    profile's entries: a plan whose override table agrees with another's
    at those identifiers gives the same output. *)
Theorem overrides_only_at_entry_ids (p : Profile.t) (pl : LlmSelectionPlan.t)
    (overrides : gmap string (list string)) :
  (∀ i,
     (∃ e, e ∈ Profile.experience p ∧ Experience.id e = Some i)
     ∨ (∃ e, e ∈ Profile.education p ∧ Education.id e = Some i)
     ∨ (∃ e, e ∈ Profile.projects p ∧ Project.id e = Some i) →
     overrides !! i = LlmSelectionPlan.bullet_overrides pl !! i) →
  build_cv_dict p
    (LlmSelectionPlan.mk
       (LlmSelectionPlan.selected_experience_ids pl)
       (LlmSelectionPlan.selected_education_ids pl)
       (LlmSelectionPlan.selected_project_ids pl)
       (LlmSelectionPlan.selected_skill_labels pl)
       overrides
       (LlmSelectionPlan.section_order pl))
  = build_cv_dict p pl.
Proof.
  intros Hsame.
  set (pl' := LlmSelectionPlan.mk _ _ _ _ overrides _).
  assert (∀ i original,
            (∃ e, e ∈ Profile.experience p ∧ Experience.id e = i)
            ∨ (∃ e, e ∈ Profile.education p ∧ Education.id e = i)
            ∨ (∃ e, e ∈ Profile.projects p ∧ Project.id e = i) →
            _resolve_highlights i original pl'
            = _resolve_highlights i original pl) as Hres.
  { intros [i|] original Hi; [|done]. unfold _resolve_highlights.
    case_decide; [done|]. simpl. rewrite Hsame; [done|].
    destruct Hi as [(e & ? & ?)|[(e & ? & ?)|(e & ? & ?)]]; eauto. }
  assert (_map_experience p pl' = _map_experience p pl) as He.
  { rewrite !map_experience_eq. simpl. apply Forall_fmap_ext, Forall_forall.
    intros e [He _]%chosen_elem. unfold experience_item, set_highlights.
    rewrite Hres; [done|]. left. by exists e. }
  assert (_map_education p pl' = _map_education p pl) as Hd.
  { rewrite !map_education_eq. simpl. apply Forall_fmap_ext, Forall_forall.
    intros e [He' _]%chosen_elem. unfold education_item, set_highlights.
    rewrite Hres; [done|]. right. left. by exists e. }
  assert (_map_projects p pl' = _map_projects p pl) as Hj.
  { rewrite !map_projects_eq. simpl. apply Forall_fmap_ext, Forall_forall.
    intros e [He' _]%chosen_elem. unfold project_item, set_highlights.
    rewrite Hres; [done|]. right. right. by exists e. }
  assert (_map_skills p pl' = _map_skills p pl) as Hs.
  { by rewrite !map_skills_eq. }
  unfold build_cv_dict, build_cv, build_sections. by rewrite He, Hd, Hj, Hs.
Qed.

(** The sample plan with an override for an identifier that no entry has. *)
Lemma overrides_only_at_entry_ids_witness :
  build_cv_dict Sample.profile
    (LlmSelectionPlan.mk ["e2"; "e1"] [] [] ["Lang"]
       (list_to_map [("e1", ["x"]); ("e9", ["y"])]) ["Skills"; "Nope"; "Skills"])
  = build_cv_dict Sample.profile Sample.plan.
Proof.
  apply (overrides_only_at_entry_ids Sample.profile Sample.plan
           (list_to_map [("e1", ["x"]); ("e9", ["y"])])).
  intros i Hi.
  assert (i = "e1" ∨ i = "e2") as [-> | ->].
  { destruct Hi as [(e & He & Hid)|[(e & He & Hid)|(e & He & Hid)]];
      simpl in He;
      repeat (apply elem_of_cons in He as [->|He]; [simpl in Hid; injection Hid; auto|]);
      by apply elem_of_nil in He. }
  - vm_compute. reflexivity.
  - vm_compute. reflexivity.
Defined.

(** X7.  On a [cv] that already has keys, [_apply_header] writes the
    header fields that the profile has over what is there and leaves every
    other key as it is: it never deletes a key, not even the key of a
    header field that the profile lacks. *)
Theorem apply_header_keeps_other_keys (cv : dict) (p : Profile.t) (k : string) :
  get (_apply_header cv p) k
  = match emitted (source_of (header_sources (Profile.meta p)) k) with
    | Some v => Some v
    | None => get cv k
    end.
Proof.
  unfold _apply_header, source_of, header_sources, header_fields.
  destruct (Profile.meta p) as [n h l e ph w so]. simpl.
  destruct so as [[|s ss]|]; lookup_cases.
Qed.
End MoreSelection.

Section MoreOutput.
Import PyDict PyDictFacts.

Ltac in_order :=
  repeat first [apply sublist_nil | apply sublist_skip | apply sublist_cons].

Lemma experience_item_keys pl e :
  keys (experience_item pl e)
  `sublist_of` ["company"; "position"; "location"; "date"; "start_date";
                "end_date"; "summary"; "highlights"].
Proof.
  unfold experience_item, set_highlights.
  generalize (_resolve_highlights (Experience.id e) (Experience.highlights e) pl).
  intros hs. destruct e as [i c po lo da sd ed su hl tg]. simpl.
  destruct lo, da, sd, ed, su, hs; vm_compute; in_order.
Qed.

Lemma education_item_keys pl e :
  keys (education_item pl e)
  `sublist_of` ["institution"; "area"; "degree"; "location"; "date";
                "start_date"; "end_date"; "summary"; "highlights"].
Proof.
  unfold education_item, set_highlights.
  generalize (_resolve_highlights (Education.id e) (Education.highlights e) pl).
  intros hs. destruct e as [i ins ar de lo da sd ed su hl tg]. simpl.
  destruct de, lo, da, sd, ed, su, hs; vm_compute; in_order.
Qed.

Lemma project_item_keys pl e :
  keys (project_item pl e)
  `sublist_of` ["name"; "summary"; "location"; "date"; "start_date";
                "end_date"; "highlights"].
Proof.
  unfold project_item, set_highlights.
  generalize (_resolve_highlights (Project.id e) (Project.highlights e) pl).
  intros hs. destruct e as [i na su lo da sd ed hl tg]. simpl.
  destruct su, lo, da, sd, ed, hs; vm_compute; in_order.
Qed.

Lemma build_cv_keys p pl :
  keys (build_cv p pl)
  `sublist_of` ["name"; "headline"; "location"; "email"; "phone"; "website";
                "social_networks"; "sections"].
Proof.
  unfold build_cv. cbv zeta.
  generalize (_order_sections (build_sections p pl)
                (LlmSelectionPlan.section_order pl)).
  intros ordered. generalize (sections_value ordered). intros sv.
  unfold _apply_header. destruct (Profile.meta p) as [n h l e ph w so]. simpl.
  destruct (truthy ordered), h, l, e, ph, w, so as [[|x xs]|];
    vm_compute; in_order.
Qed.

Lemma entry_of_section p pl title d :
  VDict d ∈ section_entries (build_cv_dict p pl) title →
  d ∈ mapped_entries p pl title.
Proof.
  rewrite section_entries_build. intros (d' & [= ->] & Hd)%list_elem_of_fmap.
  done.
Qed.

(** X8.  The keys of the output come in a fixed order: the keys of the
    [cv] mapping are a sublist of name, headline, location, email, phone,
    website, social_networks, sections, and the keys of every entry under
    Experience, Education and Projects are a sublist of the fields of its
    kind in the order in which the mapper writes them, highlights last. *)
Theorem output_keys_in_order (p : Profile.t) (pl : LlmSelectionPlan.t) :
  let out := build_cv_dict p pl in
  keys (cv_of out)
    `sublist_of` ["name"; "headline"; "location"; "email"; "phone"; "website";
                  "social_networks"; "sections"]
  ∧ (∀ d, VDict d ∈ section_entries out "Experience" →
       keys d `sublist_of` ["company"; "position"; "location"; "date";
                            "start_date"; "end_date"; "summary"; "highlights"])
  ∧ (∀ d, VDict d ∈ section_entries out "Education" →
       keys d `sublist_of` ["institution"; "area"; "degree"; "location";
                            "date"; "start_date"; "end_date"; "summary";
                            "highlights"])
  ∧ (∀ d, VDict d ∈ section_entries out "Projects" →
       keys d `sublist_of` ["name"; "summary"; "location"; "date";
                            "start_date"; "end_date"; "highlights"])
  ∧ (∀ d, VDict d ∈ section_entries out "Skills" →
       keys d = ["label"; "details"]).
Proof.
  cbv zeta. rewrite cv_of_build. split; [apply build_cv_keys|].
  split_and!; intros d Hd%entry_of_section; unfold mapped_entries in Hd;
    simpl in Hd.
  - rewrite map_experience_eq in Hd.
    apply list_elem_of_fmap in Hd as (e & -> & _). apply experience_item_keys.
  - rewrite map_education_eq in Hd.
    apply list_elem_of_fmap in Hd as (e & -> & _). apply education_item_keys.
  - rewrite map_projects_eq in Hd.
    apply list_elem_of_fmap in Hd as (e & -> & _). apply project_item_keys.
  - rewrite map_skills_eq in Hd.
    by apply list_elem_of_fmap in Hd as (e & -> & _).
Qed.

(** X9.  The section order of the plan only orders: a plan that differs in
    nothing but its section order gives the same sections with the same
    entries under every title, the same titles up to their order, and the
    same header fields. *)
Theorem section_order_only_orders (p : Profile.t) (pl : LlmSelectionPlan.t)
    (order : list string) :
  let pl' :=
    LlmSelectionPlan.mk
      (LlmSelectionPlan.selected_experience_ids pl)
      (LlmSelectionPlan.selected_education_ids pl)
      (LlmSelectionPlan.selected_project_ids pl)
      (LlmSelectionPlan.selected_skill_labels pl)
      (LlmSelectionPlan.bullet_overrides pl)
      order in
  (∀ title, section_value (build_cv_dict p pl') title
            = section_value (build_cv_dict p pl) title)
  ∧ section_titles (build_cv_dict p pl') ≡ₚ section_titles (build_cv_dict p pl)
  ∧ (∀ k, k ≠ "sections" →
       get (cv_of (build_cv_dict p pl')) k = get (cv_of (build_cv_dict p pl)) k).
Proof.
  cbv zeta. set (pl' := LlmSelectionPlan.mk _ _ _ _ _ order).
  assert (build_sections p pl' = build_sections p pl) as Hsec by done.
  split_and!.
  - intros title. by rewrite !section_value_build.
  - rewrite !section_titles_build, Hsec.
    pose proof (wf_build_sections p pl) as Hwf.
    apply NoDup_Permutation.
    + by apply wf_order_sections.
    + by apply wf_order_sections.
    + intros k. by rewrite !keys_order_known.
  - intros k Hk. rewrite !cv_of_build, !get_build_cv.
    by destruct (decide (k = "sections")).
Qed.

(** X10.  A non-empty selection is monotone: with more identifiers it
    selects no fewer entries, in the same order. *)
Theorem select_items_monotone {A : Type} `{HasId A} (items : list A)
    (ids ids' : list string) :
  ids ≠ [] → ids ⊆ ids' →
  _select_items items ids `sublist_of` _select_items items ids'.
Proof.
  intros Hne Hsub. rewrite !select_items_chosen. unfold chosen.
  destruct ids as [|i ids]; [done|]. destruct ids' as [|i' ids'].
  { by destruct (not_elem_of_nil i); apply Hsub; left. }
  replace (filter (λ x, id_selected (i :: ids) (id_of x)) items)
    with (filter (λ x, id_selected (i :: ids) (id_of x))
            (filter (λ x, id_selected (i' :: ids') (id_of x)) items)).
  { apply sublist_filter. }
  rewrite list_filter_filter. apply list_filter_iff. intros x.
  unfold id_selected. destruct (id_of x) as [j|]; [|tauto].
  split; [tauto|]. intros Hj. split; [done|]. by apply Hsub.
Qed.

Lemma select_items_monotone_witness :
  _select_items (Profile.experience Sample.profile) ["e2"]
  `sublist_of` _select_items (Profile.experience Sample.profile) ["e1"; "e2"].
Proof.
  apply (select_items_monotone (Profile.experience Sample.profile)
           ["e2"] ["e1"; "e2"]); [done|].
  intros i. rewrite !elem_of_cons, !elem_of_nil. tauto.
Defined.
End MoreOutput.

Section MoreAssembly.
Import PyDict PyDictFacts.
Variables default_design default_locale default_settings : dict.

(** X11.  The mapper and the assembler compose: the assembler never fails
    on the result of [build_cv_dict], and the document it returns has the
    mapped [cv] mapping, hence the same sections and entries. *)
Theorem assemble_mapped_body (p : Profile.t) (pl : LlmSelectionPlan.t)
    (design locale settings : option dict) :
  ∃ document,
    assemble_rendercv_document default_design default_locale default_settings
      (build_cv_dict p pl) design locale settings = Some document
    ∧ cv_of document = build_cv p pl
    ∧ section_titles document = section_titles (build_cv_dict p pl)
    ∧ (∀ title, section_entries document title
                = section_entries (build_cv_dict p pl) title).
Proof.
  eexists. split; [reflexivity|].
  assert (∀ doc, cv_of doc = cv_of (build_cv_dict p pl) →
            section_titles doc = section_titles (build_cv_dict p pl)
            ∧ ∀ title, section_entries doc title
                       = section_entries (build_cv_dict p pl) title) as Hread.
  { intros doc Hdoc. unfold section_titles, section_entries, section_value.
    by rewrite Hdoc. }
  split; [done|]. by apply Hread.
Qed.

(** X12.  The assembler reads nothing of the body but its [cv] value:
    assembling an assembled document gives what assembling the body gives,
    whatever blocks the document holds; in particular assembling twice with
    the same overrides is assembling once. *)
Theorem assemble_again (cv_dict : dict) (design locale settings : option dict)
    (document : dict) (design' locale' settings' : option dict) :
  assemble_rendercv_document default_design default_locale default_settings
    cv_dict design locale settings = Some document →
  assemble_rendercv_document default_design default_locale default_settings
    document design' locale' settings'
  = assemble_rendercv_document default_design default_locale default_settings
      cv_dict design' locale' settings'.
Proof.
  unfold assemble_rendercv_document.
  destruct (py_dict (default (VDict []) (get cv_dict "cv"))) as [cv|]; [|done].
  simpl. intros [= <-]. done.
Qed.
End MoreAssembly.

Lemma assemble_again_witness :
  assemble_rendercv_document [("theme", VStr "classic")] [] []
    [("cv", VDict [("name", VStr "A")]);
     ("design", VDict [("theme", VStr "moderncv")]);
     ("locale", VDict []); ("settings", VDict [])]
    None None None
  = assemble_rendercv_document [("theme", VStr "classic")] [] []
      [("cv", VDict [("name", VStr "A")]); ("design", VStr "x")]
      None None None.
Proof.
  apply (assemble_again [("theme", VStr "classic")] [] []
           [("cv", VDict [("name", VStr "A")]); ("design", VStr "x")]
           (Some [("theme", VStr "moderncv")]) None None).
  vm_compute. reflexivity.
Defined.

Section MoreStore.
Import PyDict PyDictFacts Store Reading HeapFacts Refinement.

(** X13.  Everything mutable in the result is new: from a store that holds
    a profile and a plan, the run of [build_cv_dict] returns a result that
    is read in full without visiting any object of that store, so the
    result shares no list and no dictionary with the profile or the plan;
    whatever is later done to the objects that were there before the call,
    the result still reads the same. *)
Theorem result_shares_nothing (s : store) (vp vpl : pyval)
    (p : Profile.t) (pl : LlmSelectionPlan.t) :
  read_profile s vp = Some p →
  read_plan s vpl = Some pl →
  ∃ r s',
    OnStore.build_cv_dict vp vpl s = Some (r, s')
    ∧ read_on (λ l, bool_decide (length s ≤ l)) 7 s' r
      = Some (VDict (build_cv_dict p pl))
    ∧ ∀ s'', (∀ l o, length s ≤ l → s' !! l = Some o → s'' !! l = Some o) →
             read_value 7 s'' r = Some (VDict (build_cv_dict p pl)).
Proof.
  intros Hp Hpl.
  pose proof (wp_build_cv_dict_fresh s vp vpl p pl Hp Hpl) as H.
  unfold wp in H.
  destruct (OnStore.build_cv_dict vp vpl s) as [[r s']|]; [|done].
  destruct H as [_ Hr]. exists r, s'. split_and!; [done|exact Hr|].
  intros s'' Hsame. unfold read_value.
  eapply read_on_mono; [exact Hr|done|done|].
  intros l o Hl%bool_decide_eq_true. by apply Hsame.
Qed.

Lemma result_shares_nothing_witness :
  read_profile Sample.objects (PRef 10) = Some Sample.profile
  ∧ read_plan Sample.objects (PRef 16) = Some Sample.plan
  ∧ ∃ r s',
      OnStore.build_cv_dict (PRef 10) (PRef 16) Sample.objects = Some (r, s')
      ∧ read_on (λ l, bool_decide (length Sample.objects ≤ l)) 7 s' r
        = Some (VDict (build_cv_dict Sample.profile Sample.plan))
      ∧ ∀ s'', (∀ l o, length Sample.objects ≤ l → s' !! l = Some o →
                       s'' !! l = Some o) →
               read_value 7 s'' r
               = Some (VDict (build_cv_dict Sample.profile Sample.plan)).
Proof.
  assert (read_profile Sample.objects (PRef 10) = Some Sample.profile) as Hp
    by (vm_compute; reflexivity).
  assert (read_plan Sample.objects (PRef 16) = Some Sample.plan) as Hpl
    by (vm_compute; reflexivity).
  split; [exact Hp|]. split; [exact Hpl|].
  exact (result_shares_nothing Sample.objects (PRef 10) (PRef 16)
           Sample.profile Sample.plan Hp Hpl).
Defined.
End MoreStore.

Section MoreStoreOrdering.
Import PyDict PyDictFacts Store Reading HeapFacts Refinement.

(** X14.  On the store, [_order_sections] never changes its argument or
    any other object.  With an empty preferred order its result is the
    argument itself, the same object and not a copy; otherwise the result
    is a new dictionary that holds, in the new order, the very values of
    the argument, so the entry lists are shared and not copied. *)
Theorem order_sections_shares_entries (s : store) (σ : loc)
    (d : PyDict.t pyval) (order : pyval) (pref : list string) :
  s !! σ = Some (ODict d) →
  read_list read_str s order = Some pref →
  ∃ r s',
    OnStore._order_sections (PRef σ) order s = Some (r, s')
    ∧ s `prefix_of` s'
    ∧ (pref = [] → r = PRef σ ∧ s' = s)
    ∧ (pref ≠ [] →
       r = PRef (length s)
       ∧ s' !! length s = Some (ODict (_order_sections d pref))).
Proof.
  intros Hd (lo & -> & Hlo)%read_str_list_inv.
  enough (wp (OnStore._order_sections (PRef σ) (PRef lo)) s
            (λ r s', s `prefix_of` s'
                     ∧ (pref = [] → r = PRef σ ∧ s' = s)
                     ∧ (pref ≠ [] →
                        r = PRef (length s)
                        ∧ s' !! length s
                          = Some (ODict (_order_sections d pref))))) as H.
  { unfold wp in H.
    destruct (OnStore._order_sections (PRef σ) (PRef lo) s) as [[r s']|];
      [|done].
    by exists r, s'. }
  unfold OnStore._order_sections.
  apply wp_bind, (wp_reading _ _ (truthy pref)).
  { simpl. rewrite Hlo. f_equal. by destruct pref. }
  destruct pref as [|t pref]; cbn [truthy negb].
  - apply wp_ret. by split_and!.
  - apply wp_bind, wp_alloc.
    apply wp_bind, (wp_reading _ _ d).
    { unfold dict_at. simpl. by rewrite (lookup_app_l_Some _ _ _ _ Hd). }
    apply wp_bind, wp_alloc. rewrite length_app. simpl.
    replace (length s + 1) with (S (length s)) by lia.
    rewrite <- app_assoc. simpl.
    apply wp_bind, (wp_reading _ _ (PStr <$> t :: pref)).
    { simpl. by rewrite (lookup_app_l_Some _ _ _ _ Hlo). }
    apply wp_bind, wp_move_titles.
    assert (_order_sections d (t :: pref)
            = fold_left (λ o '(title, entries), setitem o title entries)
                (fold_left move_title (t :: pref) ([], d)).2
                (fold_left move_title (t :: pref) ([], d)).1) as ->.
    { unfold _order_sections. cbn [truthy negb].
      by destruct (fold_left move_title (t :: pref) ([], d)). }
    destruct (fold_left move_title (t :: pref) ([], d)) as [do dr].
    cbn [fst snd].
    apply wp_bind, (wp_reading _ _ dr).
    { unfold dict_at. simpl. by rewrite lookup_two_1. }
    apply wp_bind, wp_set_rest. apply wp_ret. split_and!.
    + by eexists.
    + done.
    + intros _. split; [done|]. apply lookup_two_0.
Qed.

(** The override dictionary of the sample store, ordered by the sample
    section order. *)
Lemma order_sections_shares_entries_witness :
  ∃ r s',
    OnStore._order_sections (PRef 14) (PRef 15) Sample.objects = Some (r, s')
    ∧ Sample.objects `prefix_of` s'
    ∧ (["Skills"; "Nope"; "Skills"] = [] → r = PRef 14 ∧ s' = Sample.objects)
    ∧ (["Skills"; "Nope"; "Skills"] ≠ [] →
       r = PRef (length Sample.objects)
       ∧ s' !! length Sample.objects
         = Some (ODict (_order_sections [("e1", PRef 13)]
                          ["Skills"; "Nope"; "Skills"]))).
Proof.
  apply (order_sections_shares_entries Sample.objects 14 [("e1", PRef 13)]
           (PRef 15) ["Skills"; "Nope"; "Skills"]).
  - reflexivity.
  - vm_compute. reflexivity.
Defined.
End MoreStoreOrdering.
